(** * Agent runtime core of the AI marketing team: embedding and properties

    The development embeds, function by function, the parts of the
    repository that the specification talks about:

    - [Py]: the few pieces of Python semantics the code leans on
      (exceptions, dynamically typed values, UTF-8 [str.encode] and
      [bytes.decode], int/float conversion);
    - [Crypto]: [core/crypto.py], class [MilitaryCrypto];
    - [Sentinel]: [agents/sentinel.py], class [SecuritySentinel];
    - [Registry]: [agents/__init__.py], class [AgentRegistry].

    Python objects that are mutated in place are modelled by explicit
    state passing; a raised exception keeps the mutations made before it. *)

From Stdlib Require Import ZArith QArith Qround Qminmax Lia.
From Stdlib Require Import Floats.PrimFloat Floats.FloatOps Floats.SpecFloat.
From stdpp Require Import gmap strings list.

Local Open Scope Z_scope.
Set Warnings "-register-all".

(* ===================================================================== *)
(** * Python essentials *)
(* ===================================================================== *)

Module Py.

(** Exceptions that the embedded code can raise. *)
Inductive exn : Type :=
  | NameError (name : string)
  | KeyError (key : string)
  | TypeError
  | AttributeError
  | OverflowError
  | ValueError (msg : string)
  | UnicodeEncodeError
  | UnicodeDecodeError
  | InvalidToken
  | JSONDecodeError
  | SecurityError (msg : string)
  | CalledProcessError
  | FileNotFoundError
  | NoSuchProcess
  | AccessDenied.

(** The result of evaluating an expression that may raise. *)
Inductive result (A : Type) : Type :=
  | Ok (a : A)
  | Raise (e : exn).
Arguments Ok {A} a.
Arguments Raise {A} e.

#[global] Instance result_ret : MRet result := fun A a => Ok a.
#[global] Instance result_bind : MBind result := fun A B f r =>
  match r with
  | Ok a => f a
  | Raise e => Raise e
  end.

Definition is_ok {A} (r : result A) : bool :=
  match r with Ok _ => true | Raise _ => false end.

(** A Python [str] is a sequence of Unicode code points; a [bytes] object
    is a sequence of octets.  Both are kept as lists of integers. *)
Definition pystr : Type := list Z.
Definition pybytes : Type := list Z.

(** A string literal of the program text, as a [str]. *)
Fixpoint py (s : string) : pystr :=
  match s with
  | EmptyString => []
  | String a s' => Z.of_N (Ascii.N_of_ascii a) :: py s'
  end.

(** ** UTF-8, the codec behind [str.encode()] and [bytes.decode()] *)

Definition is_surrogate (c : Z) : bool := (55296 <=? c) && (c <=? 57343).

Definition utf8_encode_cp (c : Z) : result pybytes :=
  if c <? 0 then Raise UnicodeEncodeError
  else if c <? 128 then Ok [c]
  else if c <? 2048 then Ok [192 + c / 64; 128 + c mod 64]
  else if c <? 65536 then
    if is_surrogate c then Raise UnicodeEncodeError
    else Ok [224 + c / 4096; 128 + (c / 64) mod 64; 128 + c mod 64]
  else if c <? 1114112 then
    Ok [240 + c / 262144; 128 + (c / 4096) mod 64;
        128 + (c / 64) mod 64; 128 + c mod 64]
  else Raise UnicodeEncodeError.

(** [s.encode()] *)
Fixpoint encode (s : pystr) : result pybytes :=
  match s with
  | [] => Ok []
  | c :: s' =>
      b ← utf8_encode_cp c;
      bs ← encode s';
      Ok (b ++ bs)
  end.

Definition is_cont (b : Z) : bool := (128 <=? b) && (b <=? 191).

(** [b.decode()]: strict UTF-8, rejecting stray continuation bytes,
    truncated and overlong sequences, surrogates and code points beyond
    U+10FFFF. *)
Fixpoint decode (bs : pybytes) : result pystr :=
  match bs with
  | [] => Ok []
  | b1 :: r1 =>
      if (0 <=? b1) && (b1 <? 128) then
        s ← decode r1; Ok (b1 :: s)
      else if (192 <=? b1) && (b1 <? 224) then
        match r1 with
        | b2 :: r2 =>
            let c := (b1 - 192) * 64 + (b2 - 128) in
            if is_cont b2 && (128 <=? c) then s ← decode r2; Ok (c :: s)
            else Raise UnicodeDecodeError
        | _ => Raise UnicodeDecodeError
        end
      else if (224 <=? b1) && (b1 <? 240) then
        match r1 with
        | b2 :: b3 :: r3 =>
            let c := (b1 - 224) * 4096 + (b2 - 128) * 64 + (b3 - 128) in
            if is_cont b2 && is_cont b3 && (2048 <=? c) && negb (is_surrogate c)
            then s ← decode r3; Ok (c :: s)
            else Raise UnicodeDecodeError
        | _ => Raise UnicodeDecodeError
        end
      else if (240 <=? b1) && (b1 <? 248) then
        match r1 with
        | b2 :: b3 :: b4 :: r4 =>
            let c := (b1 - 240) * 262144 + (b2 - 128) * 4096
                     + (b3 - 128) * 64 + (b4 - 128) in
            if is_cont b2 && is_cont b3 && is_cont b4
               && (65536 <=? c) && (c <? 1114112)
            then s ← decode r4; Ok (c :: s)
            else Raise UnicodeDecodeError
        | _ => Raise UnicodeDecodeError
        end
      else Raise UnicodeDecodeError
  end.

(** A code point that UTF-8 can encode: a Unicode scalar value. *)
Definition scalar (c : Z) : Prop :=
  0 <= c < 1114112 /\ is_surrogate c = false.

(** The values a [bytes] object holds, and the ASCII ones among them. *)
Definition octet (b : Z) : Prop := 0 <= b < 256.
Definition ascii7 (b : Z) : Prop := 0 <= b < 128.

(** ** Numbers *)

(** [float(z)], as the mixed int/float arithmetic does it: the nearest
    binary64 value, [OverflowError] when there is none. *)
Definition float_of_int (z : Z) : result float :=
  let f := SF2Prim (binary_normalize prec emax z 0 false) in
  if is_infinity f then Raise OverflowError else Ok f.

(** [int(x)] for a float: truncation towards zero. *)
Definition int_of_float (x : float) : result Z :=
  match Prim2SF x with
  | S754_zero _ => Ok 0
  | S754_finite sgn m e =>
      let a := match e with
               | Z0 => Zpos m
               | Zpos p => Z.shiftl (Zpos m) (Zpos p)
               | Zneg p => Z.shiftr (Zpos m) (Zpos p)
               end in
      Ok (if sgn then - a else a)
  | S754_infinity _ => Raise OverflowError
  | S754_nan => Raise (ValueError "cannot convert float NaN to integer")
  end.

(** [z * x] with an int on the left and a float on the right. *)
Definition mul_int_float (z : Z) (x : float) : result float :=
  zf ← float_of_int z; Ok (PrimFloat.mul zf x).

(** [max(a, b)] on floats: the first argument unless the second is larger. *)
Definition max_float (a b : float) : float :=
  if PrimFloat.ltb a b then b else a.

(** ** Dynamically typed values (what a task dictionary can hold) *)

Inductive pyval : Type :=
  | PNone
  | PBool (b : bool)
  | PInt (z : Z)
  | PStr (s : pystr)
  | PList (l : list pyval)
  | PDict (d : list (pystr * pyval)).

(** Lookup in a dict kept as an association list (first binding wins). *)
Fixpoint assoc (k : pystr) (d : list (pystr * pyval)) : option pyval :=
  match d with
  | [] => None
  | (k', v) :: d' => if decide (k = k') then Some v else assoc k d'
  end.

(** A dict, as the task queue carries them. *)
Definition dict : Type := list (pystr * pyval).

(** [k in d] for a dict [d]. *)
Definition contains (k : string) (d : dict) : bool :=
  bool_decide (is_Some (assoc (py k) d)).

(** [v[k]] *)
Definition getitem (v : pyval) (k : string) : result pyval :=
  match v with
  | PDict d => match assoc (py k) d with
               | Some x => Ok x
               | None => Raise (KeyError k)
               end
  | _ => Raise TypeError
  end.

(** [v.get(k, dflt)] *)
Definition get (v : pyval) (k : string) (dflt : pyval) : result pyval :=
  match v with
  | PDict d => Ok (default dflt (assoc (py k) d))
  | _ => Raise AttributeError
  end.

(** The integer a value denotes in arithmetic ([bool] is a subclass of
    [int]); anything else makes [int + v] raise [TypeError]. *)
Definition as_int (v : pyval) : result Z :=
  match v with
  | PInt z => Ok z
  | PBool b => Ok (if b then 1 else 0)
  | _ => Raise TypeError
  end.

End Py.

(* ===================================================================== *)
(** * core/crypto.py *)
(* ===================================================================== *)

Module Crypto.
Import Py.

(** A [Fernet] cipher object of the [cryptography] package, already bound
    to its key.  The package is not part of the repository: the object is
    taken as it is handed in.  [fernet_encrypt] receives the fresh
    initialisation vector and the clock reading as its first argument, so
    that the function is deterministic; [fernet_decrypt] yields [None] where
    the package raises [InvalidToken]. *)
Record Fernet : Type := {
  fernet_encrypt : pybytes -> pybytes -> pybytes;
  fernet_decrypt : pybytes -> option pybytes
}.

(** [class MilitaryCrypto]: [self.key] and [self.cipher = Fernet(self.key)]. *)
Record MilitaryCrypto : Type := {
  key : pybytes;
  cipher : Fernet
}.

(** What [secure_comms] is written to return. *)
Record comms : Type := {
  sender : pyval;
  receiver : pyval;
  payload : pystr
}.

(** The names bound at module level: the three imports at the top of the
    file and the class itself.  [json] is not among them (and it is not a
    builtin either). *)
Definition module_globals : list string :=
  ["Fernet"; "hashlib"; "os"; "MilitaryCrypto"].

(** Evaluation of a global name inside a method body. *)
Definition load_global (name : string) : result unit :=
  if decide (name ∈ module_globals) then Ok () else Raise (NameError name).

Section Methods.
(** [hashlib.sha256(b).hexdigest()] and [json.dumps], from the Python
    standard library. *)
Variable sha256_hexdigest : pybytes -> pystr.
Variable json_dumps : pyval -> result pystr.

Variable self : MilitaryCrypto.

(** [return self.cipher.encrypt(data.encode()).decode()] *)
Definition encrypt (entropy : pybytes) (data : pystr) : result pystr :=
  b ← encode data;
  decode (fernet_encrypt (cipher self) entropy b).

(** [return self.cipher.decrypt(encrypted_data.encode()).decode()] *)
Definition decrypt (encrypted_data : pystr) : result pystr :=
  b ← encode encrypted_data;
  p ← from_option Ok (Raise InvalidToken) (fernet_decrypt (cipher self) b);
  decode p.

(** [return hashlib.sha256(data.encode()).hexdigest()[:12]] *)
Definition hash_data (data : pystr) : result pystr :=
  load_global "hashlib";;
  b ← encode data;
  Ok (take 12 (sha256_hexdigest b)).

(** [return {'sender': sender, 'receiver': receiver,
             'payload': self.encrypt(json.dumps(message))}]:
    the dict display evaluates its values from left to right, and the
    argument [json.dumps(message)] starts with the global name [json]. *)
Definition secure_comms (entropy : pybytes) (sender receiver message : pyval)
  : result comms :=
  load_global "json";;
  dumped ← json_dumps message;
  p ← encrypt entropy dumped;
  Ok {| sender := sender; receiver := receiver; payload := p |}.
End Methods.

(** ** A stand-in cipher

    A cipher object that meets what the codec needs from Fernet (tokens
    are ASCII, and decrypting a token gives the plaintext back): every
    octet is written as two letters of [A..P].  It only serves to show
    that these assumptions can be met together. *)

Definition armor_octet (b : Z) : pybytes := [65 + b / 16; 65 + b mod 16].

Fixpoint armor (m : pybytes) : pybytes :=
  match m with
  | [] => []
  | b :: m' => armor_octet b ++ armor m'
  end.

Definition is_letter (b : Z) : bool := (65 <=? b) && (b <? 81).

Fixpoint unarmor (t : pybytes) : option pybytes :=
  match t with
  | [] => Some []
  | h :: l :: t' =>
      if is_letter h && is_letter l then
        m ← unarmor t'; Some ((h - 65) * 16 + (l - 65) :: m)
      else None
  | _ => None
  end.

Definition armor_cipher : Fernet :=
  {| fernet_encrypt := fun _ m => armor m; fernet_decrypt := unarmor |}.

Definition armored : MilitaryCrypto := {| key := []; cipher := armor_cipher |}.



(** What the codec relies on from a Fernet object: a token decrypts to
    the plaintext it was made from, and tokens are URL-safe base64, hence
    ASCII. *)
Definition fernet_contract (f : Fernet) : Prop :=
  (forall entropy m, Forall octet m ->
     fernet_decrypt f (fernet_encrypt f entropy m) = Some m)
  /\ (forall entropy m, Forall octet m ->
       Forall ascii7 (fernet_encrypt f entropy m)).




End Crypto.

(* ===================================================================== *)
(** * agents/sentinel.py *)
(* ===================================================================== *)

Module Sentinel.
Import Py.

(** Threat levels, severities and increments are Python ints here.  The
    float increments that the performance monitor and the full scan pass
    to [_update_threat_level] are outside the embedding; the floats inside
    [_adjust_monitoring] are binary64 values. *)

(** The four monitoring callbacks that [_init_monitoring] schedules, and
    what the other agents put on the same scheduler: [schedule] keeps one
    default scheduler for the whole process. *)
Inductive callback : Type :=
  | _monitor_network_activity
  | _monitor_processes
  | _monitor_system_performance
  | _check_system_integrity
  | job_of_another_agent (name : string).

(** A job of the [schedule] package:
    [schedule.every(interval).seconds.do(job_func)].  For a job of
    another agent the interval is in the unit that its owner chose. *)
Record job : Type := {
  interval : Z;
  job_func : callback
}.

(** The jobs that this sentinel scheduled. *)
Definition own (j : job) : bool :=
  match job_func j with
  | job_of_another_agent _ => false
  | _ => true
  end.

(** What [logger] is called with.  Messages are kept structured instead
    of formatted. *)
Inductive log_event : Type :=
  | Initialized (level : Z)
  | UnknownTaskType (task_type : pyval)
  | DecryptionFailed (e : exn)
  | ThreatAlert (description : pyval)
  | Alert (category description : pystr)
  | ThreatLevelChanged (level : Z)
  | ActivatedCountermeasures (activated : list string)
  | ActivatingLockdown
  | NetworkIsolation
  | NetworkIsolationFailed (e : exn)
  | SuspendedProcesses (first_five : list pystr) (total : nat)
  | EnhancedMonitoring
  | ProcessRestrictions
  | AssetsFrozen
  | EnhancedLogging
  | BackupInitiated
  | Sent (message_type recipient : string)
  | ShuttingDown
  | Deactivating (measures : list string)
  | ShutdownComplete.

(** ** The operating system

    What [subprocess], [psutil] and [os] answer to the countermeasures.
    None of them is code of the repository: their answers are taken as
    they come. *)

(** The two commands of [_isolate_network]:
    [netsh interface set interface name=<adapter> admin=disable]. *)
Inductive command : Type :=
  | netsh_disable (adapter : string).

(** A process as [psutil.process_iter()] yields it: what [proc.name()]
    answers, [proc.pid], what [proc.suspend()] does, and what
    [proc.name()] answers once the process is suspended. *)
Record process : Type := {
  proc_name : result pystr;
  proc_pid : Z;
  proc_suspend : result unit;
  proc_name_suspended : result pystr
}.

(** [subprocess_run c] is [subprocess.run(c, check=True)]: it raises
    [CalledProcessError] when the command exits with a status other than
    zero, and [FileNotFoundError] when the host has no such program.
    [str_lower] is [str.lower]; it belongs to the language and is kept
    here with the other things that the methods find outside the
    sentinel. *)
Record Host : Type := {
  subprocess_run : command -> result unit;
  process_iter : list process;
  getpid : Z;
  str_lower : pystr -> pystr
}.

(** The mutable state of a [SecuritySentinel], together with what its
    methods act on outside it: the default scheduler of the [schedule]
    module ([jobs]), which the whole process shares, the log, and the
    host as the next call finds it. *)
Record Sentinel : Type := {
  threat_level : Z;
  active_countermeasures : list string;
  monitoring_intervals : gmap string Z;
  running : bool;
  task_queue : list dict;
  jobs : list job;
  log : list log_event;
  host : Host
}.

Definition set_threat_level (v : Z) (s : Sentinel) : Sentinel :=
  {| threat_level := v;
     active_countermeasures := active_countermeasures s;
     monitoring_intervals := monitoring_intervals s;
     running := running s; task_queue := task_queue s;
     jobs := jobs s; log := log s; host := host s |}.

Definition set_active_countermeasures (v : list string) (s : Sentinel) : Sentinel :=
  {| threat_level := threat_level s;
     active_countermeasures := v;
     monitoring_intervals := monitoring_intervals s;
     running := running s; task_queue := task_queue s;
     jobs := jobs s; log := log s; host := host s |}.

Definition set_monitoring_intervals (v : gmap string Z) (s : Sentinel) : Sentinel :=
  {| threat_level := threat_level s;
     active_countermeasures := active_countermeasures s;
     monitoring_intervals := v;
     running := running s; task_queue := task_queue s;
     jobs := jobs s; log := log s; host := host s |}.

Definition set_running (v : bool) (s : Sentinel) : Sentinel :=
  {| threat_level := threat_level s;
     active_countermeasures := active_countermeasures s;
     monitoring_intervals := monitoring_intervals s;
     running := v; task_queue := task_queue s;
     jobs := jobs s; log := log s; host := host s |}.

Definition set_task_queue (v : list dict) (s : Sentinel) : Sentinel :=
  {| threat_level := threat_level s;
     active_countermeasures := active_countermeasures s;
     monitoring_intervals := monitoring_intervals s;
     running := running s; task_queue := v;
     jobs := jobs s; log := log s; host := host s |}.

Definition set_jobs (v : list job) (s : Sentinel) : Sentinel :=
  {| threat_level := threat_level s;
     active_countermeasures := active_countermeasures s;
     monitoring_intervals := monitoring_intervals s;
     running := running s; task_queue := task_queue s;
     jobs := v; log := log s; host := host s |}.

Definition set_log (v : list log_event) (s : Sentinel) : Sentinel :=
  {| threat_level := threat_level s;
     active_countermeasures := active_countermeasures s;
     monitoring_intervals := monitoring_intervals s;
     running := running s; task_queue := task_queue s;
     jobs := jobs s; log := v; host := host s |}.

Definition set_host (v : Host) (s : Sentinel) : Sentinel :=
  {| threat_level := threat_level s;
     active_countermeasures := active_countermeasures s;
     monitoring_intervals := monitoring_intervals s;
     running := running s; task_queue := task_queue s;
     jobs := jobs s; log := log s; host := v |}.

(** ** Methods as state transformers that may raise *)

Inductive outcome (A : Type) : Type :=
  | Returned (a : A) (s : Sentinel)
  | Raised (e : exn) (s : Sentinel).
Arguments Returned {A} a s.
Arguments Raised {A} e s.

Definition M (A : Type) : Type := Sentinel -> outcome A.

#[global] Instance M_ret : MRet M := fun A a s => Returned a s.
#[global] Instance M_bind : MBind M := fun A B f m s =>
  match m s with
  | Returned a s' => f a s'
  | Raised e s' => Raised e s'
  end.

(** Reading [self], assigning to one of its attributes, raising. *)
Definition read : M Sentinel := fun s => Returned s s.
Definition assign (set : Sentinel -> Sentinel) : M unit :=
  fun s => Returned () (set s).
Definition raise {A} (e : exn) : M A := fun s => Raised e s.

(** An expression that may raise, evaluated inside a method. *)
Definition eval {A} (r : result A) : M A :=
  match r with
  | Ok a => mret a
  | Raise e => raise e
  end.

(** [try: body  except Exception as e: handler(e)] *)
Definition try_except {A} (body : M A) (handler : exn -> M A) : M A :=
  fun s =>
    match body s with
    | Returned a s' => Returned a s'
    | Raised e s' => handler e s'
    end.

(** [try: body  except <one class> as e: handler(e)]: an exception of
    another class passes through. *)
Definition try_except_on {A} (caught : exn -> bool) (body : M A)
    (handler : exn -> M A) : M A :=
  fun s =>
    match body s with
    | Returned a s' => Returned a s'
    | Raised e s' => if caught e then handler e s' else Raised e s'
    end.

(** [for x in l: body(x)] *)
Fixpoint for_each {A} (l : list A) (body : A -> M unit) : M unit :=
  match l with
  | [] => mret ()
  | x :: l' => body x;; for_each l' body
  end.

(** The state a call leaves behind, whether it returned or raised. *)
Definition final {A} (o : outcome A) : Sentinel :=
  match o with
  | Returned _ s => s
  | Raised _ s => s
  end.

Definition returns {A} (o : outcome A) : bool :=
  match o with
  | Returned _ _ => true
  | Raised _ _ => false
  end.

(** [logger(...)], from [core.utils]. *)
Definition logger (e : log_event) : M unit :=
  fun s => Returned () (set_log (log s ++ [e]) s).

(** [schedule.every(n).seconds.do(f)] and [schedule.clear()]. *)
Definition schedule_every_seconds_do (n : Z) (f : callback) : M unit :=
  fun s => Returned () (set_jobs (jobs s ++ [{| interval := n; job_func := f |}]) s).

Definition schedule_clear : M unit :=
  fun s => Returned () (set_jobs [] s).

(** [self.monitoring_intervals[k]] *)
Definition interval_of (k : string) : M Z :=
  fun s =>
    match monitoring_intervals s !! k with
    | Some v => Returned v s
    | None => Raised (KeyError k) s
    end.

(** The state that [__init__] sets up before it calls
    [_init_monitoring], on a host and with the jobs that the scheduler
    of the process holds by then. *)
Definition fresh_on (h : Host) (scheduled : list job) : Sentinel :=
  {| threat_level := 0;
     active_countermeasures := [];
     monitoring_intervals :=
       {[ "network" := 5; "process" := 10; "performance" := 15; "integrity" := 30 ]};
     running := true;
     task_queue := [];
     jobs := scheduled;
     log := [];
     host := h |}.

Definition _init_monitoring : M unit :=
  n ← interval_of "network";
  schedule_every_seconds_do n _monitor_network_activity;;
  p ← interval_of "process";
  schedule_every_seconds_do p _monitor_processes;;
  f ← interval_of "performance";
  schedule_every_seconds_do f _monitor_system_performance;;
  i ← interval_of "integrity";
  schedule_every_seconds_do i _check_system_integrity.

(** The sentinel once [__init__] is through: the schedules are set up
    and the initial level is logged. *)
Definition init_on (h : Host) (scheduled : list job) : Sentinel :=
  final ((_init_monitoring;; s ← read; logger (Initialized (threat_level s)))
           (fresh_on h scheduled)).

(** A host on which [netsh] disables both adapters and [psutil] lists no
    process, so that [str_lower] is never applied. *)
Definition standalone : Host :=
  {| subprocess_run := fun _ => Ok ();
     process_iter := [];
     getpid := 1;
     str_lower := fun name => name |}.

(** The same host without a [netsh] program. *)
Definition without_netsh : Host :=
  {| subprocess_run := fun _ => Raise FileNotFoundError;
     process_iter := [];
     getpid := 1;
     str_lower := fun name => name |}.

(** The sentinel built on its own, as the test suite builds it: nothing
    else has scheduled a job. *)
Definition fresh : Sentinel := fresh_on standalone [].
Definition init : Sentinel := init_on standalone [].

Definition base_intervals : list (string * Z) :=
  [("network", 5); ("process", 10); ("performance", 15); ("integrity", 30)].

(** [max(0.1, 1 - (self.threat_level * 0.05))] *)
Definition multiplier (level : Z) : result float :=
  t ← mul_int_float level 0x1.999999999999ap-5%float;
  Ok (max_float 0x1.999999999999ap-4%float (PrimFloat.sub 1%float t)).

(** [max(1, int(v * multiplier))] *)
Definition scaled (v : Z) (m : float) : result Z :=
  x ← mul_int_float v m;
  i ← int_of_float x;
  Ok (Z.max 1 i).

(** [{k: max(1, int(v * multiplier)) for k, v in base_intervals.items()}] *)
Fixpoint scaled_items (items : list (string * Z)) (m : float)
  : result (list (string * Z)) :=
  match items with
  | [] => Ok []
  | (k, v) :: items' =>
      i ← scaled v m;
      rest ← scaled_items items' m;
      Ok ((k, i) :: rest)
  end.

Definition _adjust_monitoring : M unit :=
  s ← read;
  m ← eval (multiplier (threat_level s));
  items ← eval (scaled_items base_intervals m);
  assign (set_monitoring_intervals (list_to_map items));;
  schedule_clear;;
  _init_monitoring.

Definition _update_threat_level (increment : Z) : M unit :=
  s ← read;
  let new_level := Z.min 10 (threat_level s + increment) in
  if negb (new_level =? threat_level s) then
    assign (set_threat_level new_level);;
    logger (ThreatLevelChanged new_level);;
    _adjust_monitoring
  else mret ().

(** ** Countermeasures

    The calls to [subprocess] and [psutil] act on the operating system
    and on nothing the sentinel stores: what they change there is not
    kept, what they return or raise is. *)

(** [subprocess.run(command, check=True)] *)
Definition run_checked (c : command) : M unit :=
  s ← read; eval (subprocess_run (host s) c).

Definition is_CalledProcessError (e : exn) : bool :=
  match e with
  | CalledProcessError => true
  | _ => false
  end.

Definition _isolate_network : M unit :=
  try_except_on is_CalledProcessError
    (run_checked (netsh_disable "Ethernet");;
     run_checked (netsh_disable "Wi-Fi");;
     logger NetworkIsolation)
    (fun e => logger (NetworkIsolationFailed e)).

Definition critical_processes : list pystr :=
  [py "python"; py "system"; py "svchost"].

(** [except (psutil.NoSuchProcess, psutil.AccessDenied): continue] *)
Definition gone_or_denied (e : exn) : bool :=
  match e with
  | NoSuchProcess | AccessDenied => true
  | _ => false
  end.

(** The body of the [try] for one process: the names that it appends to
    [suspended]. *)
Definition suspend_unless_critical (h : Host) (proc : process)
  : result (list pystr) :=
  n ← proc_name proc;
  if negb (bool_decide (str_lower h n ∈ critical_processes))
     && negb (proc_pid proc =? getpid h)
  then
    proc_suspend proc;;
    suspended_name ← proc_name_suspended proc;
    Ok [suspended_name]
  else Ok [].

(** The loop over [psutil.process_iter()]. *)
Fixpoint suspend_loop (h : Host) (procs : list process) (suspended : list pystr)
  : result (list pystr) :=
  match procs with
  | [] => Ok suspended
  | proc :: procs' =>
      match suspend_unless_critical h proc with
      | Ok names => suspend_loop h procs' (suspended ++ names)
      | Raise e =>
          if gone_or_denied e then suspend_loop h procs' suspended
          else Raise e
      end
  end.

Definition _suspend_non_critical_processes : M unit :=
  s ← read;
  suspended ← eval (suspend_loop (host s) (process_iter (host s)) []);
  match suspended with
  | [] => mret ()
  | _ :: _ =>
      logger (SuspendedProcesses (take 5 suspended) (length suspended))
  end.

Definition _enhance_monitoring : M unit :=
  assign (set_monitoring_intervals
            {[ "network" := 1; "process" := 2; "performance" := 5; "integrity" := 10 ]});;
  _adjust_monitoring;;
  logger EnhancedMonitoring.

Definition _restrict_process_creation : M unit := logger ProcessRestrictions.
Definition _freeze_content_assets : M unit := logger AssetsFrozen.
Definition _enable_enhanced_logging : M unit := logger EnhancedLogging.
Definition _backup_critical_data : M unit := logger BackupInitiated.

(** [self.active_countermeasures.append(measure)] *)
Definition append_countermeasure (measure : string) : M unit :=
  fun s => Returned ()
    (set_active_countermeasures (active_countermeasures s ++ [measure]) s).

(** [_send_results]: the payload is serialised with [json.dumps], whose
    output is ASCII, and encrypted; the message is built and dropped
    ("in production, would use message broker"), and the sending is
    logged.  Only the log line is kept. *)
Definition _send_results (recipient message_type : string) : M unit :=
  logger (Sent message_type recipient).

(** The loop of [_activate_countermeasures], with its local list
    [activated] as an accumulator. *)
Fixpoint activate_loop (measures activated : list string) : M (list string) :=
  match measures with
  | [] => mret activated
  | measure :: measures' =>
      s ← read;
      if bool_decide (measure ∈ active_countermeasures s) then
        activate_loop measures' activated
      else
        append_countermeasure measure;;
        (if String.eqb measure "isolate_network" then _isolate_network
         else if String.eqb measure "suspend_non_critical" then _suspend_non_critical_processes
         else if String.eqb measure "enhanced_monitoring" then _enhance_monitoring
         else if String.eqb measure "process_restrictions" then _restrict_process_creation
         else mret ());;
        activate_loop measures' (activated ++ [measure])
  end.

Definition _activate_countermeasures (measures : list string) : M unit :=
  activated ← activate_loop measures [];
  match activated with
  | [] => mret ()
  | _ :: _ => logger (ActivatedCountermeasures activated)
  end.

Definition lockdown_measures : list string :=
  ["isolate_network"; "suspend_non_critical"; "freeze_assets";
   "enable_logging"; "backup_critical"].

Definition lockdown_step (measure : string) : M unit :=
  s ← read;
  if bool_decide (measure ∈ active_countermeasures s) then mret ()
  else
    append_countermeasure measure;;
    (if String.eqb measure "freeze_assets" then _freeze_content_assets
     else if String.eqb measure "enable_logging" then _enable_enhanced_logging
     else if String.eqb measure "backup_critical" then _backup_critical_data
     else mret ()).

Definition _activate_lockdown : M unit :=
  s ← read;
  if bool_decide ("lockdown" ∈ active_countermeasures s) then mret ()
  else
    logger ActivatingLockdown;;
    for_each lockdown_measures lockdown_step;;
    _send_results "Commander" "lockdown_activated".

(** ** Handlers *)

Definition _handle_suspicious_activity (category description : pystr) (severity : Z)
  : M unit :=
  logger (Alert category description);;
  _update_threat_level severity;;
  (if 8 <=? severity then _activate_lockdown
   else if 5 <=? severity then
     _activate_countermeasures ["enhanced_monitoring"; "process_restrictions"]
   else mret ());;
  _send_results "Commander" "security_alert".

Definition _handle_threat_alert (task : pyval) : M unit :=
  threat ← eval (getitem task "threat");
  description ← eval (getitem threat "description");
  logger (ThreatAlert description);;
  severity ← eval (get threat "severity" (PInt 1));
  increment ← eval (as_int severity);
  _update_threat_level increment;;
  s ← read;
  if 7 <=? threat_level s then _activate_lockdown
  else if 4 <=? threat_level s then
    _activate_countermeasures ["isolate_network"; "suspend_non_critical"]
  else mret ().

(** ** The worker and the public interface

    The worker thread and the producers that call [receive_message] are
    interleaved at the granularity of whole calls. *)

(** What the sentinel is handed or calls from outside its own class: the
    injected crypto object, [json.loads], the two handlers that only touch
    probes and the whitelist, and [schedule.run_pending()]. *)
Record Env : Type := {
  crypto_decrypt : pyval -> result pystr;
  json_loads : pystr -> result pyval;
  _full_system_scan : M unit;
  _update_whitelist : pyval -> M unit;
  schedule_run_pending : M unit
}.

Section Worker.
Variable env : Env.

Definition _decrypt_task (encrypted_task : dict) : M pyval :=
  try_except
    (p ← eval (getitem (PDict encrypted_task) "payload");
     decrypted ← eval (crypto_decrypt env p);
     eval (json_loads env decrypted))
    (fun e =>
       logger (DecryptionFailed e);;
       mret (PDict [(py "error", PStr (py "decryption_failed"))])).

Definition is_type (task_type : pyval) (name : string) : bool :=
  match task_type with
  | PStr t => bool_decide (t = py name)
  | _ => false
  end.

Definition _process_task (task : dict) : M unit :=
  task ← (if contains "encrypted" task then _decrypt_task task
          else mret (PDict task));
  task_type ← eval (get task "type" PNone);
  if is_type task_type "security_scan" then _full_system_scan env
  else if is_type task_type "threat_alert" then _handle_threat_alert task
  else if is_type task_type "update_whitelist" then _update_whitelist env task
  else if is_type task_type "lockdown" then _activate_lockdown
  else logger (UnknownTaskType task_type).

(** One turn of the [while self.running] loop of [run]: a queued task
    is taken and processed; on an empty queue the scheduler is ticked. *)
Definition run_once : M unit :=
  s ← read;
  match task_queue s with
  | task :: rest => assign (set_task_queue rest);; _process_task task
  | [] => schedule_run_pending env
  end.

Fixpoint run (turns : nat) : M unit :=
  match turns with
  | O => mret ()
  | S n =>
      s ← read;
      if running s then run_once;; run n else mret ()
  end.
End Worker.

(** [self.task_queue.put(message)] *)
Definition receive_message (message : dict) : M unit :=
  fun s => Returned () (set_task_queue (task_queue s ++ [message]) s).

Definition shutdown : M unit :=
  assign (set_running false);;
  logger ShuttingDown;;
  s ← read;
  (match active_countermeasures s with
   | [] => mret ()
   | _ :: _ =>
       logger (Deactivating (active_countermeasures s));;
       assign (set_active_countermeasures [])
   end);;
  logger ShutdownComplete.

(** ** The specification's side of the monitoring formula *)

(** [max(1, base * max(0.1, 1 - level*0.05))] over the rationals, as the
    specification writes it. *)
Definition formula_interval (base level : Z) : Q :=
  Qmax 1 (inject_Z base * Qmax (1 # 10) (1 - inject_Z level * (5 # 100))).

(** Truncation of a rational towards zero. *)
Definition Qtrunc (q : Q) : Z := Z.quot (Qnum q) (Zpos (Qden q)).

(** The same with the product truncated to an integer before the outer
    [max], as [int(v * multiplier)] does. *)
Definition truncated_interval (base level : Z) : Z :=
  Z.max 1 (Qtrunc (inject_Z base * Qmax (1 # 10) (1 - inject_Z level * (5 # 100)))).

Definition interval_table (level : Z) : gmap string Z :=
  list_to_map (map (fun '(k, v) => (k, truncated_interval v level)) base_intervals).

(** One job per monitoring category, at the interval of the table. *)
Definition monitoring_jobs (level : Z) : list job :=
  [ {| interval := truncated_interval 5 level; job_func := _monitor_network_activity |};
    {| interval := truncated_interval 10 level; job_func := _monitor_processes |};
    {| interval := truncated_interval 15 level; job_func := _monitor_system_performance |};
    {| interval := truncated_interval 30 level; job_func := _check_system_integrity |} ].

(** The state [_adjust_monitoring] leaves at a level between 0 and 10. *)
Definition adjusted (s : Sentinel) : Sentinel :=
  set_jobs (monitoring_jobs (threat_level s))
    (set_monitoring_intervals (interval_table (threat_level s)) s).

(** [s'] differs from [s] at most in the monitoring intervals and the
    scheduled jobs. *)
Definition same_but_monitoring (s s' : Sentinel) : Prop :=
  threat_level s' = threat_level s
  /\ active_countermeasures s' = active_countermeasures s
  /\ running s' = running s
  /\ task_queue s' = task_queue s
  /\ log s' = log s
  /\ host s' = host s.

(** The level after a series of updates of the initial sentinel. *)
Definition level_after (increments : list Z) : Z :=
  threat_level (final (for_each increments _update_threat_level init)).

(** The sentinel at level 10, reached from the initial one. *)
Definition at_level_10 : Sentinel := final (_update_threat_level 12 init).

(** The intervals as the specification states them: every category at
    exactly the value of the formula. *)
Definition follows_formula (s : Sentinel) : Prop :=
  forall c base, (c, base) ∈ base_intervals ->
    exists v, monitoring_intervals s !! c = Some v
              /\ (inject_Z v == formula_interval base (threat_level s))%Q.

(** ** The specification's side of the countermeasures *)

(** Appending, in order, the measures that are not active yet. *)
Fixpoint add_missing (measures active : list string) : list string :=
  match measures with
  | [] => active
  | m :: measures' =>
      add_missing measures' (if bool_decide (m ∈ active) then active else active ++ [m])
  end.

(** A call preserves a relation when the state it leaves, returning or
    raising, is related to the one it started from. *)
Definition preserves (R : relation Sentinel) {A} (m : M A) : Prop :=
  forall s, R s (final (m s)).

Definition keeps_active : relation Sentinel :=
  fun s s' => active_countermeasures s' = active_countermeasures s.

Definition grows_active : relation Sentinel :=
  fun s s' => active_countermeasures s ⊆ active_countermeasures s'.

(** The sentinel after a suspicious-activity report of severity 12. *)
Definition locked_down : Sentinel :=
  final (_handle_suspicious_activity (py "integrity") (py "files modified") 12 init).

(** The measures of the reduced response to a suspicious activity. *)
Definition reduced_measures : list string :=
  ["enhanced_monitoring"; "process_restrictions"].

(** A host on which the two actions that go to the operating system
    return: every [netsh] command completes or exits with an error
    status, and the calls on a process raise nothing but
    [NoSuchProcess] and [AccessDenied]. *)
Definition cooperative (h : Host) : Prop :=
  (forall c, subprocess_run h c = Ok ()
             \/ subprocess_run h c = Raise CalledProcessError)
  /\ Forall (fun proc =>
               forall e,
                 proc_name proc = Raise e \/ proc_suspend proc = Raise e
                 \/ proc_name_suspended proc = Raise e ->
                 gone_or_denied e = true)
       (process_iter h).

(** The threshold policy as the specification states it, read off the
    level that a call leaves behind. *)
Definition policy_on_resulting_level (before after : Sentinel) : Prop :=
  (8 <= threat_level after ->
     forall m, m ∈ lockdown_measures -> m ∈ active_countermeasures after)
  /\ (4 <= threat_level after < 8 ->
       forall m, m ∈ reduced_measures -> m ∈ active_countermeasures after)
  /\ (threat_level after < 4 ->
       active_countermeasures after = active_countermeasures before).

(** A well-formed [threat_alert] task. *)
Definition threat_alert_task (description : pystr) (severity : Z) : pyval :=
  PDict [ (py "type", PStr (py "threat_alert"));
          (py "threat", PDict [ (py "description", PStr description);
                                (py "severity", PInt severity);
                                (py "source", PStr (py "process_monitor")) ]) ].

(** What [_activate_lockdown] leaves active. *)
Definition with_lockdown (active : list string) : list string :=
  if bool_decide ("lockdown" ∈ active) then active
  else add_missing lockdown_measures active.

(** ** The specification's side of the worker *)

(** An environment whose crypto object refuses every token, and a task
    shaped like the encrypted sample of the test suite. *)
Definition refusing : Env :=
  {| crypto_decrypt := fun _ => Raise InvalidToken;
     json_loads := fun _ => Raise JSONDecodeError;
     _full_system_scan := mret ();
     _update_whitelist := fun _ => mret ();
     schedule_run_pending := mret () |}.

Definition sample_encrypted : dict :=
  [ (py "payload", PStr (py "gAAAAABlXrX8J0X9z3Z5Q6k7V1nYqW0p"));
    (py "encrypted", PBool true) ].

(** The contract of [receive] as the specification states it: on a
    stopped runtime the call fails. *)
Definition receive_fails_once_stopped : Prop :=
  forall s message,
    running s = false -> returns (receive_message message s) = false.

(** The calls that act on the threat state. *)
Inductive operation : Type :=
  | Update (delta : Z)
  | SuspiciousActivity (category description : pystr) (severity : Z)
  | ThreatAlertTask (task : pyval)
  | Lockdown
  | Countermeasures (measures : list string)
  | Receive (message : dict).

Definition perform (op : operation) : M unit :=
  match op with
  | Update delta => _update_threat_level delta
  | SuspiciousActivity category description severity =>
      _handle_suspicious_activity category description severity
  | ThreatAlertTask task => _handle_threat_alert task
  | Lockdown => _activate_lockdown
  | Countermeasures measures => _activate_countermeasures measures
  | Receive message => receive_message message
  end.

End Sentinel.

(* ===================================================================== *)
(** * agents/__init__.py *)
(* ===================================================================== *)

Module Registry.
Import Py.

(** An agent instance as the registry sees it: which object it is, and
    the attribute names that [hasattr] finds on it. *)
Record instance : Type := {
  object_id : nat;
  attributes : gset string
}.

Definition hasattr (agent : instance) (name : string) : bool :=
  bool_decide (name ∈ attributes agent).

(** The class attribute [_agents] and the lines that [logger] received. *)
Record AgentRegistry : Type := {
  _agents : gmap string instance;
  registered_log : list string
}.

Definition empty : AgentRegistry :=
  {| _agents := ∅; registered_log := [] |}.

Definition _validate_agent_security (agent : instance) : bool :=
  let checks := [ hasattr agent "crypto";
                  hasattr agent "secure_comms";
                  hasattr agent "threat_monitor" ] in
  forallb (fun b => b) checks.

(** [register_agent] raises before it touches the class, so that a
    raising call leaves the registry as it was. *)
Definition register_agent (agent_type : string) (inst : instance)
    (cls : AgentRegistry) : result AgentRegistry :=
  if negb (_validate_agent_security inst) then
    Raise (SecurityError "Agent failed security validation")
  else
    Ok {| _agents := <[agent_type := inst]> (_agents cls);
          registered_log := registered_log cls ++ [agent_type] |}.

(** An instance with the three attributes, and one that lacks
    [threat_monitor] (as every agent class of the repository does). *)
Definition capable : instance :=
  {| object_id := 1;
     attributes := {[ "crypto"; "secure_comms"; "threat_monitor"; "name" ]} |}.

Definition incapable : instance :=
  {| object_id := 2;
     attributes := {[ "crypto"; "secure_comms"; "name" ]} |}.

Definition get_agent (agent_type : string) (cls : AgentRegistry) : result instance :=
  match _agents cls !! agent_type with
  | None => Raise (ValueError ("Agent " +:+ agent_type +:+ " not registered"))
  | Some inst => Ok inst
  end.

End Registry.

(* ===================================================================== *)
(** * agents/sentinel.py: monitors, scans and the whitelist *)
(* ===================================================================== *)

Module Monitors.
Import Py Sentinel.

(** The names bound at module level in [agents/sentinel.py]: its imports
    and the class.  [glob] is not among them. *)
Definition module_globals : list string :=
  ["os"; "json"; "time"; "threading"; "queue"; "datetime"; "hashlib";
   "socket"; "psutil"; "Fernet"; "MilitaryCrypto"; "logger"; "secure_fetch";
   "schedule"; "subprocess"; "np"; "SecuritySentinel"].

Definition load_global (name : string) : result unit :=
  if decide (name ∈ module_globals) then Ok () else Raise (NameError name).

(** The attributes that [__init__] assigns on a sentinel.
    [integrity_baseline] is not among them. *)
Definition instance_attributes : list string :=
  ["crypto"; "name"; "role"; "task_queue"; "running"; "thread";
   "threat_level"; "active_countermeasures"; "whitelist"; "threat_signatures";
   "network_baseline"; "process_baseline"; "performance_baseline";
   "monitoring_intervals"].

(** [self.<name>] for a data attribute. *)
Definition load_attr (name : string) : result unit :=
  if decide (name ∈ instance_attributes) then Ok () else Raise AttributeError.

(** ** The whitelist *)

(** [self.whitelist]: a dict from category to a list of entries. *)
Abbreviation whitelist := (gmap pystr (list pyval)).

Definition entry (fields : list (string * string)) : pyval :=
  PDict (map (fun '(k, v) => (py k, PStr (py v))) fields).

Definition _load_whitelist : whitelist :=
  {[ py "connections" :=
       [ entry [("ip", "127.0.0.1"); ("port", "*"); ("description", "localhost")];
         entry [("ip", "api.openai.com"); ("port", "443"); ("description", "OpenAI API")] ];
     py "processes" :=
       [ entry [("name", "python"); ("description", "Python interpreter")];
         entry [("name", "chrome"); ("description", "Web browser")];
         entry [("name", "svchost"); ("description", "Windows service host")] ] ]}.

(** [self.whitelist[category]] *)
Definition category (wl : whitelist) (name : string) : result (list pyval) :=
  match wl !! py name with
  | Some l => Ok l
  | None => Raise (KeyError name)
  end.

(** ** Network connections *)

(** A connection as [_get_network_connections] builds it; [remote] is
    ["ip:port"] or [None]. *)
Record connection : Type := {
  local : pystr;
  remote : option pystr;
  pid : pyval;
  status : pystr
}.

(** [s.split(':')[0]] *)
Fixpoint before_colon (s : pystr) : pystr :=
  match s with
  | [] => []
  | c :: s' => if c =? 58 then [] else c :: before_colon s'
  end.

(** [v == s] for a value [v] and a str [s]. *)
Definition eq_str (v : pyval) (s : pystr) : bool :=
  match v with
  | PStr t => bool_decide (t = s)
  | _ => false
  end.

(** The [for] loop of [_is_connection_authorized]: [True] at the first
    entry whose ['ip'] equals the host part of a non-empty [remote]. *)
Fixpoint some_entry_allows (entries : list pyval) (conn : connection)
  : result bool :=
  match entries with
  | [] => Ok false
  | allowed :: entries' =>
      match remote conn with
      | Some (c :: r) =>
          ip ← get allowed "ip" PNone;
          if eq_str ip (before_colon (c :: r)) then Ok true
          else some_entry_allows entries' conn
      | _ => some_entry_allows entries' conn
      end
  end.

Definition _is_connection_authorized (wl : whitelist) (conn : connection)
  : result bool :=
  entries ← category wl "connections";
  allowed ← some_entry_allows entries conn;
  if (allowed : bool) then Ok true
  else match remote conn with
       | None => Ok true
       | Some _ => Ok false
       end.

(** The loop of [_monitor_network_activity] that collects [suspicious]. *)
Fixpoint suspicious_connections (wl : whitelist) (conns : list connection)
  : result (list connection) :=
  match conns with
  | [] => Ok []
  | conn :: conns' =>
      authorized ← _is_connection_authorized wl conn;
      rest ← suspicious_connections wl conns';
      Ok (if (authorized : bool) then rest else conn :: rest)
  end.

Section NetworkMonitor.
(** The formatted alert text, and what [_get_network_connections] has
    returned. *)
Variable describe : list connection -> pystr.
Variable wl : whitelist.

Definition _monitor_network_activity (current_connections : list connection)
  : M unit :=
  suspicious ← eval (suspicious_connections wl current_connections);
  match suspicious with
  | [] => mret ()
  | _ :: _ =>
      _handle_suspicious_activity (py "network") (describe suspicious)
        (Z.of_nat (length suspicious))
  end.
End NetworkMonitor.

(** ** Processes *)

(** A process as [psutil] reports it: [name] and [exe] are a str or
    [None]. *)
Record process_info : Type := {
  name : option pystr;
  exe : option pystr
}.

(** [a in b] for two strs: [a] occurs in [b] as a substring. *)
Fixpoint starts_with (a b : pystr) : bool :=
  match a, b with
  | [], _ => true
  | x :: a', y :: b' => (x =? y) && starts_with a' b'
  | _ :: _, [] => false
  end.

Fixpoint occurs_in (a b : pystr) : bool :=
  starts_with a b ||
  match b with
  | [] => false
  | _ :: b' => occurs_in a b'
  end.

(** [v.lower()]: a str method. *)
Definition lowered (lower : pystr -> pystr) (v : pyval) : result pystr :=
  match v with
  | PStr s => Ok (lower s)
  | _ => Raise AttributeError
  end.

(** [v in e] with a str [e] on the right: the left operand must be a
    str too. *)
Definition in_str (v : pyval) (e : pystr) : result bool :=
  match v with
  | PStr p => Ok (occurs_in p e)
  | _ => Raise TypeError
  end.

Section Processes.
(** [str.lower], from the language. *)
Variable lower : pystr -> pystr.

Fixpoint some_entry_whitelists (entries : list pyval) (info : process_info)
  : result bool :=
  match entries with
  | [] => Ok false
  | allowed :: entries' =>
      allowed_name ← getitem allowed "name";
      a ← lowered lower allowed_name;
      n ← lowered lower (from_option PStr PNone (name info));
      if occurs_in a n then Ok true
      else
        match exe info with
        | Some (c :: e) =>
            path ← get allowed "path" PNone;
            hit ← in_str path (c :: e);
            if (hit : bool) then Ok true else some_entry_whitelists entries' info
        | _ => some_entry_whitelists entries' info
        end
  end.

Definition _is_process_whitelisted (wl : whitelist) (info : process_info)
  : result bool :=
  entries ← category wl "processes";
  some_entry_whitelists entries info.
End Processes.

(** ** Updating the whitelist *)

(** What [list.extend(v)] appends: the elements of a list, the characters
    of a str, the keys of a dict; other values are not iterable. *)
Definition iterate (v : pyval) : result (list pyval) :=
  match v with
  | PList l => Ok l
  | PStr s => Ok (map (fun c => PStr [c]) s)
  | PDict d => Ok (map (fun kv => PStr (fst kv)) d)
  | _ => Raise TypeError
  end.

(** [v.items()] *)
Definition items (v : pyval) : result dict :=
  match v with
  | PDict d => Ok d
  | _ => Raise AttributeError
  end.

(** The whitelist as a call leaves it, with what the call did. *)
Definition updated (A : Type) : Type := whitelist * result A.

(** The loop of [_update_whitelist]; an exception leaves the categories
    extended so far. *)
Fixpoint extend_categories (entries : dict) (wl : whitelist) : updated unit :=
  match entries with
  | [] => (wl, Ok ())
  | (cat, new_items) :: entries' =>
      match wl !! cat with
      | None => extend_categories entries' wl
      | Some old =>
          match iterate new_items with
          | Ok l => extend_categories entries' (<[cat := old ++ l]> wl)
          | Raise e => (wl, Raise e)
          end
      end
  end.

(** [_update_whitelist]; the value returned is the number that the log
    line reports, [len(task['entries'])]. *)
Definition _update_whitelist (task : pyval) (wl : whitelist) : updated nat :=
  match (entries ← getitem task "entries"; items entries) with
  | Raise e => (wl, Raise e)
  | Ok d =>
      match extend_categories d wl with
      | (wl', Ok _) => (wl', Ok (length d))
      | (wl', Raise e) => (wl', Raise e)
      end
  end.

(** ** Scans *)

Definition critical_patterns : list string :=
  ["agents/*.py"; "core/*.py"; "config/*.ini"; "requirements.txt"].

Section Scans.
(** What the file system answers: the files that match a pattern and do
    not have mode [0o600]. *)
Variable insecure_files : string -> result (list pystr).

Definition insecure_permissions (file : pystr) : pyval :=
  PDict [ (py "type", PStr (py "insecure_permissions"));
          (py "file", PStr file);
          (py "recommendation", PStr (py "chmod 600")) ].

(** The loop of [_scan_filesystem]; [glob.glob(pattern)] starts with the
    global name [glob]. *)
Fixpoint scan_patterns (patterns : list string) (threats : list pyval)
  : result (list pyval) :=
  match patterns with
  | [] => Ok threats
  | pattern :: patterns' =>
      load_global "glob";;
      files ← insecure_files pattern;
      scan_patterns patterns' (threats ++ map insecure_permissions files)
  end.

Definition _scan_filesystem : result pyval :=
  threats ← scan_patterns critical_patterns [];
  Ok (PDict [ (py "threats", PList threats);
              (py "severity", PInt 5);
              (py "files_checked", PInt (Z.of_nat (length critical_patterns))) ]).

(** [_scan_network] and [_scan_processes] ask [psutil]; what they come
    back with is taken as given.  [initiating] is the log line that
    announces the scan.  [score_and_report] is the rest of
    [_full_system_scan] after the file-system scan: the performance scan,
    the float score, the update of the level and the report. *)
Variable _scan_network : result pyval.
Variable _scan_processes : result pyval.
Variable initiating : log_event.
Variable score_and_report : pyval -> pyval -> pyval -> M unit.

Definition _full_system_scan : M unit :=
  logger initiating;;
  network ← eval _scan_network;
  processes ← eval _scan_processes;
  filesystem ← eval _scan_filesystem;
  score_and_report network processes filesystem.

(** [_hash_file] reads the disk; [compare_hashes] is the loop of
    [_check_system_integrity] over [self.integrity_baseline] and the
    alert that follows it. *)
Variable _hash_file : string -> result pyval.
Variable compare_hashes : M unit.

Definition _check_system_integrity : M unit :=
  eval (_hash_file "agents/commander.py");;
  eval (_hash_file "core/crypto.py");;
  eval (_hash_file "config/api_keys.ini");;
  eval (load_attr "integrity_baseline");;
  compare_hashes.
End Scans.

End Monitors.

(* ===================================================================== *)
(** * agents/sentinel.py: encrypted envelopes *)
(* ===================================================================== *)

Module Envelope.
Import Py Sentinel.

(** [self.crypto.decrypt(v)] for a sentinel that holds a [MilitaryCrypto]:
    anything but a str has no [encode]. *)
Definition decrypt_value (crypto : Crypto.MilitaryCrypto) (v : pyval)
  : result pystr :=
  match v with
  | PStr s => Crypto.decrypt crypto s
  | _ => Raise AttributeError
  end.

(** The message that [_send_results] builds around an encrypted payload. *)
Definition envelope (recipient token : pystr) : dict :=
  [ (py "to", PStr recipient);
    (py "payload", PStr token);
    (py "encrypted", PBool true) ].

End Envelope.

(* ===================================================================== *)
(** * agents/commander.py *)
(* ===================================================================== *)

Module Commander.
Import Py.

(** [class ProjectCommander]: [self.crypto] and [self.campaigns]. *)
Record ProjectCommander : Type := {
  crypto : Crypto.MilitaryCrypto;
  campaigns : gmap pystr pyval
}.

(** [a + b] *)
Definition add (a b : pyval) : result pyval :=
  match a, b with
  | PStr s, PStr t => Ok (PStr (s ++ t))
  | PList l, PList m => Ok (PList (l ++ m))
  | PInt x, PInt y => Ok (PInt (x + y))
  | PInt x, PBool y => Ok (PInt (x + (if y then 1 else 0)))
  | PBool x, PInt y => Ok (PInt ((if x then 1 else 0) + y))
  | PBool x, PBool y => Ok (PInt ((if x then 1 else 0) + (if y then 1 else 0)))
  | _, _ => Raise TypeError
  end.

Section Methods.
Variable sha256_hexdigest : pybytes -> pystr.

(** [self.crypto.hash_data(v)]: [hashlib] is named before [v.encode()]
    is evaluated, and only a str has [encode]. *)
Definition hash_value (v : pyval) : result pystr :=
  match v with
  | PStr s => Crypto.hash_data sha256_hexdigest s
  | _ => Crypto.load_global "hashlib";; Raise AttributeError
  end.

Definition _generate_id (campaign : pyval) : result pystr :=
  product ← getitem campaign "product";
  target_demo ← getitem campaign "target_demo";
  data ← add product target_demo;
  hash_value data.

(** [launch_campaign] returns the identifier; every exception is raised
    before [self.campaigns] is touched.  [ooda_cycle] catches its own
    exceptions and its result is dropped. *)
Definition launch_campaign (campaign : pyval) (self : ProjectCommander)
  : result (pystr * ProjectCommander) :=
  campaign_id ← _generate_id campaign;
  Ok (campaign_id,
      {| crypto := crypto self;
         campaigns := <[campaign_id := campaign]> (campaigns self) |}).
End Methods.

(** A campaign with the two fields that the identifier is made of. *)
Definition campaign_of (product target_demo : pystr) (others : dict) : pyval :=
  PDict ((py "product", PStr product) :: (py "target_demo", PStr target_demo)
         :: others).

End Commander.

(* ===================================================================== *)
(** * agents/__init__.py: init_agents *)
(* ===================================================================== *)

Module Bootstrap.
Import Py Registry.





End Bootstrap.

(* ===================================================================== *)
(** * core/utils.py *)
(* ===================================================================== *)

Module Utils.
Import Py.

(** ** CircularBuffer *)

Inductive failure : Type := IndexError | ZeroDivisionError.

Section CircularBuffer.
Context {A : Type}.

Record CircularBuffer : Type := {
  size : Z;
  buffer : list A;
  index : Z
}.

(** [CircularBuffer(size)] *)
Definition new (size : Z) : CircularBuffer :=
  {| size := size; buffer := []; index := 0 |}.

(** [l[i] = x]: a negative index counts from the end; [None] stands for
    [IndexError]. *)
Definition setitem (l : list A) (i : Z) (x : A) : option (list A) :=
  let n := Z.of_nat (length l) in
  if (0 <=? i) && (i <? n) then Some (<[Z.to_nat i := x]> l)
  else if (- n <=? i) && (i <? 0) then Some (<[Z.to_nat (n + i) := x]> l)
  else None.

(** Where the slices [l[i:]] and [l[:i]] cut. *)
Definition cut (l : list A) (i : Z) : nat :=
  let n := Z.of_nat (length l) in
  Z.to_nat (if i <? 0 then Z.max 0 (n + i) else Z.min i n).

(** The buffer that [add] leaves, with the exception it raised, if any. *)
Definition add (item : A) (self : CircularBuffer) : CircularBuffer * option failure :=
  let stored :=
    if Z.of_nat (length (buffer self)) <? size self
    then Some (buffer self ++ [item])
    else setitem (buffer self) (index self) item in
  match stored with
  | None => (self, Some IndexError)
  | Some b =>
      let self' := {| size := size self; buffer := b; index := index self |} in
      if size self =? 0 then (self', Some ZeroDivisionError)
      else ({| size := size self; buffer := b;
               index := (index self + 1) mod size self |}, None)
  end.

(** [self.buffer[self.index:] + self.buffer[:self.index]] *)
Definition get_all (self : CircularBuffer) : list A :=
  drop (cut (buffer self) (index self)) (buffer self)
  ++ take (cut (buffer self) (index self)) (buffer self).

Definition clear (self : CircularBuffer) : CircularBuffer :=
  {| size := size self; buffer := []; index := 0 |}.

(** Adding the items of a list one after the other, up to the first
    exception. *)
Fixpoint add_all (items : list A) (self : CircularBuffer)
  : CircularBuffer * option failure :=
  match items with
  | [] => (self, None)
  | item :: items' =>
      match add item self with
      | (self', None) => add_all items' self'
      | raised => raised
      end
  end.
End CircularBuffer.
Arguments CircularBuffer A : clear implicits.

(** ** DataSanitizer *)

Section Sanitizer.
(** [str.isspace] on one character, from the language. *)
Variable isspace : Z -> bool.

Fixpoint lstrip (s : pystr) : pystr :=
  match s with
  | [] => []
  | c :: s' => if isspace c then lstrip s' else s
  end.

(** [s.strip()] *)
Definition strip (s : pystr) : pystr :=
  reverse (lstrip (reverse (lstrip s))).

(** [s.replace('\0', '')] *)
Definition remove_nul (s : pystr) : pystr :=
  filter (fun c => c ≠ 0) s.

(** [s[:n]] *)
Definition upto (n : Z) (s : pystr) : pystr :=
  if n <? 0 then take (length s - Z.to_nat (- n)) s
  else take (Z.to_nat n) s.

Definition sanitize_string (input_str : pyval) (max_length : Z) : result pystr :=
  match input_str with
  | PStr s => Ok (upto max_length (remove_nul (strip s)))
  | _ => Raise (ValueError "Input must be a string")
  end.
End Sanitizer.

End Utils.

(* ===================================================================== *)
(** * agents/sentinel.py: states that calls can reach *)
(* ===================================================================== *)

Module Reach.
Import Py Sentinel.

(** The states that a sentinel reaches.  It is initialised on some host,
    in a process whose scheduler may already hold jobs of other agents;
    it is taken through the calls that act on the threat state and
    through [shutdown]; meanwhile the host may change, and other agents
    may put further jobs on the scheduler (the sentinel is the only
    caller of [schedule.clear()] in the repository). *)
Inductive reachable : Sentinel -> Prop :=
  | reach_init h scheduled :
      Forall (fun j => own j = false) scheduled ->
      reachable (init_on h scheduled)
  | reach_perform op s : reachable s -> reachable (final (perform op s))
  | reach_shutdown s : reachable s -> reachable (final (shutdown s))
  | reach_host h s : reachable s -> reachable (set_host h s)
  | reach_scheduled j s :
      reachable s -> own j = false -> reachable (set_jobs (jobs s ++ [j]) s).

(** The reachable states on the way to which no call left a negative
    level.  The intervals of these states are at most the base
    intervals; below zero they grow with the distance from zero, up to
    spans that [schedule] cannot turn into a date. *)
Inductive reachable_on_scale : Sentinel -> Prop :=
  | on_scale_init h scheduled :
      Forall (fun j => own j = false) scheduled ->
      reachable_on_scale (init_on h scheduled)
  | on_scale_perform op s :
      reachable_on_scale s ->
      0 <= threat_level (final (perform op s)) ->
      reachable_on_scale (final (perform op s))
  | on_scale_shutdown s :
      reachable_on_scale s -> reachable_on_scale (final (shutdown s))
  | on_scale_host h s : reachable_on_scale s -> reachable_on_scale (set_host h s)
  | on_scale_scheduled j s :
      reachable_on_scale s -> own j = false ->
      reachable_on_scale (set_jobs (jobs s ++ [j]) s).

Definition categories : gset string :=
  {[ "network"; "process"; "performance"; "integrity" ]}.

Definition callbacks : list callback :=
  [ _monitor_network_activity; _monitor_processes;
    _monitor_system_performance; _check_system_integrity ].

(** Every category has an interval of at least one second, and the
    jobs of this sentinel on the shared scheduler are the four
    monitoring jobs, in order, each at an interval of at least one
    second. *)
Definition well_scheduled (s : Sentinel) : Prop :=
  dom (monitoring_intervals s) = categories
  /\ (forall k v, monitoring_intervals s !! k = Some v -> 1 <= v)
  /\ map job_func (List.filter own (jobs s)) = callbacks
  /\ Forall (fun j => own j = true -> 1 <= interval j) (jobs s).

Definition capped : relation Sentinel :=
  fun s s' => threat_level s <= 10 -> threat_level s' <= 10.

Definition keeps_level : relation Sentinel :=
  fun s s' => threat_level s' = threat_level s.

Definition keeps_NoDup : relation Sentinel :=
  fun s s' => NoDup (active_countermeasures s) -> NoDup (active_countermeasures s').

Definition keeps_schedule : relation Sentinel :=
  fun s s' => well_scheduled s -> well_scheduled s'.

(** The tag that the guard of [_activate_lockdown] looks for stays
    absent. *)
Definition keeps_unlisted : relation Sentinel :=
  fun s s' =>
    "lockdown" ∉ active_countermeasures s -> "lockdown" ∉ active_countermeasures s'.

(** The interval of a category in closed form, for levels 0 to 10. *)
Definition interval_at (base level : Z) : Z :=
  Z.max 1 (base * (20 - level) / 20).

(** A [threat_alert] task whose threat carries the given fields. *)
Definition alert (threat : dict) : pyval :=
  PDict [ (py "type", PStr (py "threat_alert")); (py "threat", PDict threat) ].

End Reach.

(* ===================================================================== *)
(** * Facts about the Python layer *)
(* ===================================================================== *)

Module PyFacts.
Import Py.

Ltac split_bools :=
  repeat match goal with
  | H : _ && _ = true |- _ => apply andb_true_iff in H; destruct H
  | H : _ && _ = false |- _ => apply andb_false_iff in H
  | H : negb _ = true |- _ => apply negb_true_iff in H
  | H : (_ <=? _) = true |- _ => apply Z.leb_le in H
  | H : (_ <=? _) = false |- _ => apply Z.leb_gt in H
  | H : (_ <? _) = true |- _ => apply Z.ltb_lt in H
  | H : (_ <? _) = false |- _ => apply Z.ltb_ge in H
  end.

(** Linear arithmetic with division and remainder by constants. *)
Ltac dlia := Z.div_mod_to_equations; lia.

Ltac decide_test b :=
  let E := fresh "E" in
  destruct b eqn:E; split_bools.

Lemma utf8_encode_cp_octets c b :
  utf8_encode_cp c = Ok b -> Forall octet b.
Proof.
  unfold utf8_encode_cp, is_surrogate, octet.
  repeat match goal with
  | |- context [if ?t then _ else _] => decide_test t
  end; intros [= <-]; repeat constructor; try dlia.
Qed.

Lemma encode_octets s b : encode s = Ok b -> Forall octet b.
Proof.
  revert b. induction s as [|c s IH]; intros b; cbn.
  - intros [= <-]. constructor.
  - destruct (utf8_encode_cp c) as [bc|] eqn:Ec; cbn; [|discriminate].
    destruct (encode s) as [bs|]; cbn; [|discriminate].
    intros [= <-]. apply Forall_app. split; eauto using utf8_encode_cp_octets.
Qed.

(** Decoding undoes the encoding of one code point, whatever follows. *)
Lemma decode_utf8_encode_cp c rest :
  scalar c ->
  exists b, utf8_encode_cp c = Ok b /\
            decode (b ++ rest) = (s ← decode rest; Ok (c :: s)).
Proof.
  intros [Hr Hs]. unfold utf8_encode_cp. rewrite Hs.
  pose proof Hs as Hs'. unfold is_surrogate in Hs'.
  destruct (c <? 0) eqn:E0; split_bools; [lia|].
  destruct (c <? 128) eqn:E1; split_bools.
  { eexists; split; [reflexivity|]. cbn [app decode].
    replace ((0 <=? c) && (c <? 128)) with true; [reflexivity|].
    symmetry. apply andb_true_iff. split; [apply Z.leb_le|apply Z.ltb_lt]; dlia. }
  destruct (c <? 2048) eqn:E2; split_bools.
  { eexists; split; [reflexivity|]. cbn [app decode].
    replace ((0 <=? 192 + c / 64) && (192 + c / 64 <? 128)) with false
      by (symmetry; apply andb_false_iff; right; apply Z.ltb_ge; dlia).
    replace ((192 <=? 192 + c / 64) && (192 + c / 64 <? 224)) with true
      by (symmetry; apply andb_true_iff; split; [apply Z.leb_le|apply Z.ltb_lt]; dlia).
    replace ((192 + c / 64 - 192) * 64 + (128 + c mod 64 - 128)) with c by dlia.
    unfold is_cont.
    replace ((128 <=? 128 + c mod 64) && (128 + c mod 64 <=? 191) && (128 <=? c))
      with true; [reflexivity|].
    symmetry. rewrite !andb_true_iff, !Z.leb_le. dlia. }
  destruct (c <? 65536) eqn:E3; split_bools.
  { eexists; split; [reflexivity|]. cbn [app decode].
    replace ((0 <=? 224 + c / 4096) && (224 + c / 4096 <? 128)) with false
      by (symmetry; apply andb_false_iff; right; apply Z.ltb_ge; dlia).
    replace ((192 <=? 224 + c / 4096) && (224 + c / 4096 <? 224)) with false
      by (symmetry; apply andb_false_iff; right; apply Z.ltb_ge; dlia).
    replace ((224 <=? 224 + c / 4096) && (224 + c / 4096 <? 240)) with true
      by (symmetry; apply andb_true_iff; split; [apply Z.leb_le|apply Z.ltb_lt]; dlia).
    replace ((224 + c / 4096 - 224) * 4096 + (128 + (c / 64) mod 64 - 128) * 64
             + (128 + c mod 64 - 128)) with c by dlia.
    rewrite Hs. unfold is_cont.
    replace ((128 <=? 128 + (c / 64) mod 64) && (128 + (c / 64) mod 64 <=? 191)
             && ((128 <=? 128 + c mod 64) && (128 + c mod 64 <=? 191))
             && (2048 <=? c) && negb false)
      with true; [reflexivity|].
    symmetry. rewrite !andb_true_iff, !Z.leb_le. dlia. }
  replace (c <? 1114112) with true by (symmetry; apply Z.ltb_lt; dlia).
  eexists; split; [reflexivity|]. cbn [app decode].
  replace ((0 <=? 240 + c / 262144) && (240 + c / 262144 <? 128)) with false
    by (symmetry; apply andb_false_iff; right; apply Z.ltb_ge; dlia).
  replace ((192 <=? 240 + c / 262144) && (240 + c / 262144 <? 224)) with false
    by (symmetry; apply andb_false_iff; right; apply Z.ltb_ge; dlia).
  replace ((224 <=? 240 + c / 262144) && (240 + c / 262144 <? 240)) with false
    by (symmetry; apply andb_false_iff; right; apply Z.ltb_ge; dlia).
  replace ((240 <=? 240 + c / 262144) && (240 + c / 262144 <? 248)) with true
    by (symmetry; apply andb_true_iff; split; [apply Z.leb_le|apply Z.ltb_lt]; dlia).
  replace ((240 + c / 262144 - 240) * 262144 + (128 + (c / 4096) mod 64 - 128) * 4096
           + (128 + (c / 64) mod 64 - 128) * 64 + (128 + c mod 64 - 128))
    with c by dlia.
  unfold is_cont.
  replace ((128 <=? 128 + (c / 4096) mod 64) && (128 + (c / 4096) mod 64 <=? 191)
           && ((128 <=? 128 + (c / 64) mod 64) && (128 + (c / 64) mod 64 <=? 191))
           && ((128 <=? 128 + c mod 64) && (128 + c mod 64 <=? 191))
           && (65536 <=? c) && (c <? 1114112))
    with true; [reflexivity|].
  symmetry. rewrite !andb_true_iff, !Z.leb_le, Z.ltb_lt. dlia.
Qed.

Lemma decode_encode s :
  Forall scalar s -> exists b, encode s = Ok b /\ decode b = Ok s.
Proof.
  induction 1 as [|c s Hc _ [bs [Ebs Dbs]]].
  - exists []. split; reflexivity.
  - destruct (decode_utf8_encode_cp c bs Hc) as [bc [Ebc Dbc]].
    exists (bc ++ bs). cbn. rewrite Ebc, Ebs. cbn. split; [reflexivity|].
    rewrite Dbc, Dbs. reflexivity.
Qed.




Lemma ascii7_scalar b : ascii7 b -> scalar b.
Proof.
  unfold ascii7, scalar, is_surrogate. intros H. split; [lia|].
  apply andb_false_iff. left. apply Z.leb_gt. lia.
Qed.

Lemma encode_ascii bs : Forall ascii7 bs -> encode bs = Ok bs.
Proof.
  induction 1 as [|b bs Hb _ IH]; [reflexivity|].
  cbn. unfold utf8_encode_cp. unfold ascii7 in Hb.
  replace (b <? 0) with false by (symmetry; apply Z.ltb_ge; lia).
  replace (b <? 128) with true by (symmetry; apply Z.ltb_lt; lia).
  cbn. rewrite IH. reflexivity.
Qed.

Lemma decode_ascii bs : Forall ascii7 bs -> decode bs = Ok bs.
Proof.
  induction 1 as [|b bs Hb _ IH]; [reflexivity|].
  cbn [decode]. unfold ascii7 in Hb.
  replace ((0 <=? b) && (b <? 128)) with true.
  - rewrite IH. reflexivity.
  - symmetry. apply andb_true_iff. rewrite Z.leb_le, Z.ltb_lt. lia.
Qed.







End PyFacts.


(* ===================================================================== *)
(** * Properties of the crypto codec *)
(* ===================================================================== *)

Module CryptoProps.
Import Py PyFacts Crypto.

Lemma armor_ascii m : Forall octet m -> Forall ascii7 (armor m).
Proof.
  induction 1 as [|b m Hb _ IH]; cbn; [constructor|].
  unfold octet in Hb. repeat constructor; unfold ascii7; try dlia. exact IH.
Qed.

Lemma unarmor_armor m : Forall octet m -> unarmor (armor m) = Some m.
Proof.
  induction 1 as [|b m Hb _ IH]; [reflexivity|].
  unfold octet in Hb. cbn [armor armor_octet app unarmor].
  replace (is_letter (65 + b / 16) && is_letter (65 + b mod 16)) with true.
  - rewrite IH. cbn. f_equal. f_equal. dlia.
  - symmetry. unfold is_letter. rewrite !andb_true_iff, !Z.leb_le, !Z.ltb_lt. dlia.
Qed.

Lemma armor_cipher_contract : fernet_contract armor_cipher.
Proof.
  split; intros entropy m Hm; [exact (unarmor_armor m Hm)|exact (armor_ascii m Hm)].
Qed.

Section Codec.
Variable self : MilitaryCrypto.
Hypothesis contract : fernet_contract (cipher self).

Lemma encrypt_token entropy x b :
  encode x = Ok b ->
  encrypt self entropy x = Ok (fernet_encrypt (cipher self) entropy b).
Proof.
  intros E. unfold encrypt. rewrite E. cbn.
  apply decode_ascii, contract. eauto using encode_octets.
Qed.

End Codec.







Section Names.
Variable sha256_hexdigest : pybytes -> pystr.
Variable json_dumps : pyval -> result pystr.
Variable self : MilitaryCrypto.

(** C10: [secure_comms] raises [NameError] on the name [json] for
    every sender, receiver and message, so it never returns its record;
    [encrypt], [decrypt] and [hash_data] never raise a [NameError], and
    [hash_data] finds the [hashlib] it names. *)
Theorem secure_comms_NameError :
  (forall entropy sender receiver message,
     secure_comms json_dumps self entropy sender receiver message
     = Raise (NameError "json"))
  /\ (forall entropy data n, encrypt self entropy data <> Raise (NameError n))
  /\ (forall token n, decrypt self token <> Raise (NameError n))
  /\ (forall data,
        hash_data sha256_hexdigest data
        = (b ← encode data; Ok (take 12 (sha256_hexdigest b)))).
Proof.
  assert (Henc : forall s n, encode s <> Raise (NameError n)).
  { induction s as [|c s IH]; intros n; cbn; [discriminate|].
    unfold utf8_encode_cp.
    repeat match goal with
    | |- context [if ?t then _ else _] => destruct t
    end; cbn; try discriminate;
    (destruct (encode s) eqn:Es; cbn; [discriminate|]; intros [= ->];
     exact (IH n eq_refl)). }
  assert (Hdec : forall bs n, decode bs <> Raise (NameError n)).
  { intros bs. remember (length bs) as k eqn:Hk.
    revert bs Hk. induction k as [k IH] using lt_wf_ind. intros bs -> n.
    assert (Hrec : forall r, (length r < length bs)%nat -> forall (f : pystr -> pystr),
               (s ← decode r; Ok (f s)) <> Raise (NameError n)).
    { intros r Hr f. destruct (decode r) eqn:Er; cbn; [discriminate|].
      intros [= ->]. exact (IH _ Hr r eq_refl n Er). }
    destruct bs as [|b1 r1]; cbn [decode]; [discriminate|].
    repeat match goal with
    | |- context [if ?t then _ else _] => destruct t
    | |- context [match ?l with [] => _ | _ :: _ => _ end] => destruct l
    end; try discriminate; apply Hrec; cbn; lia. }
  split; [|split; [|split]].
  - intros entropy sender receiver message. reflexivity.
  - intros entropy data n. unfold encrypt.
    destruct (encode data) eqn:E; cbn; [apply Hdec|].
    intros [= ->]. exact (Henc _ _ E).
  - intros token n. unfold decrypt.
    destruct (encode token) eqn:E; cbn.
    + destruct (fernet_decrypt (cipher self) a); cbn; [apply Hdec|discriminate].
    + intros [= ->]. exact (Henc _ _ E).
  - intros data. reflexivity.
Qed.
End Names.

End CryptoProps.

(* ===================================================================== *)
(** * Properties of the threat escalation engine *)
(* ===================================================================== *)

Module SentinelProps.
Import Py Sentinel.

(** ** Monitoring cadence *)

Lemma small_level (l : Z) :
  0 <= l <= 10 ->
  l = 0 \/ l = 1 \/ l = 2 \/ l = 3 \/ l = 4 \/ l = 5 \/ l = 6 \/ l = 7
  \/ l = 8 \/ l = 9 \/ l = 10.
Proof. lia. Qed.

(** Between levels 0 and 10 the floating-point computation never raises
    and agrees with the truncated rational formula. *)
Lemma _adjust_monitoring_small s :
  0 <= threat_level s <= 10 ->
  _adjust_monitoring s = Returned () (adjusted s).
Proof.
  destruct s as [l ac mi r q j lg h]. cbn [threat_level]. intros H.
  destruct (small_level l H) as [->|[->|[->|[->|[->|[->|[->|[->|[->|[->| ->]]]]]]]]]];
    vm_compute; reflexivity.
Qed.

Ltac unfold_m :=
  unfold eval in *;
  unfold mbind, mret, M_bind, M_ret, read, assign, raise, logger,
    schedule_clear, schedule_every_seconds_do, interval_of in *.

Ltac case_step :=
  match goal with
  | |- context [match ?x with Ok _ => _ | Raise _ => _ end] => destruct x eqn:?
  | |- context [match ?x with Some _ => _ | None => _ end] => destruct x eqn:?
  | |- context [if ?x then _ else _] => destruct x eqn:?
  end.

Lemma _init_monitoring_frame s :
  same_but_monitoring s (final (_init_monitoring s)).
Proof.
  unfold same_but_monitoring, _init_monitoring. unfold_m.
  repeat (cbn; try case_step); cbn; auto 10.
Qed.

Lemma same_but_monitoring_refl s : same_but_monitoring s s.
Proof. repeat split. Qed.

Lemma _adjust_monitoring_frame s :
  same_but_monitoring s (final (_adjust_monitoring s)).
Proof.
  unfold _adjust_monitoring. unfold_m.
  generalize (multiplier (threat_level s)). intros [m|e]; cbv beta iota;
    [|apply same_but_monitoring_refl].
  generalize (scaled_items base_intervals m). intros [items|e]; cbv beta iota;
    [|apply same_but_monitoring_refl].
  apply (_init_monitoring_frame
           (set_jobs [] (set_monitoring_intervals (list_to_map items) s))).
Qed.

(** The level after an update, whether the call returned or raised. *)
Lemma threat_level_after_update s d :
  threat_level (final (_update_threat_level d s)) = Z.min 10 (threat_level s + d).
Proof.
  unfold _update_threat_level. unfold_m. cbn.
  destruct (Z.min 10 (threat_level s + d) =? threat_level s) eqn:E; cbn.
  - apply Z.eqb_eq in E. congruence.
  - match goal with
    | |- threat_level (final (_adjust_monitoring ?s0)) = _ =>
        destruct (_adjust_monitoring_frame s0) as [-> _]
    end.
    reflexivity.
Qed.

Lemma _update_threat_level_unchanged s d :
  Z.min 10 (threat_level s + d) = threat_level s ->
  _update_threat_level d s = Returned () s.
Proof.
  intros E. unfold _update_threat_level. unfold_m. cbn.
  rewrite E, Z.eqb_refl. reflexivity.
Qed.

Lemma _update_threat_level_changed s d :
  Z.min 10 (threat_level s + d) <> threat_level s ->
  0 <= threat_level s + d ->
  _update_threat_level d s
  = Returned ()
      (adjusted
         (set_log (log s ++ [ThreatLevelChanged (Z.min 10 (threat_level s + d))])
            (set_threat_level (Z.min 10 (threat_level s + d)) s))).
Proof.
  intros Hne H0. unfold _update_threat_level. unfold_m. cbn.
  apply Z.eqb_neq in Hne. rewrite Hne. cbn.
  apply _adjust_monitoring_small. cbn. lia.
Qed.

(** ** What the calls preserve *)

#[local] Instance keeps_active_preorder : PreOrder keeps_active.
Proof.
  split; [intros s; reflexivity|].
  intros a b c Hab Hbc. unfold keeps_active in *. congruence.
Qed.

#[local] Instance grows_active_preorder : PreOrder grows_active.
Proof.
  split; [intros s x Hx; exact Hx|].
  intros a b c Hab Hbc x Hx. apply Hbc, Hab, Hx.
Qed.

Lemma keeps_grows s s' : keeps_active s s' -> grows_active s s'.
Proof. unfold keeps_active, grows_active. intros -> x Hx. exact Hx. Qed.

Section Preserves.
Context (R : relation Sentinel) `{!PreOrder R}.

Lemma preserves_ret {A} (a : A) : preserves R (mret a).
Proof. intros s. reflexivity. Qed.

Lemma preserves_raise {A} e : preserves R (@raise A e).
Proof. intros s. reflexivity. Qed.

Lemma preserves_eval {A} (r : result A) : preserves R (eval r).
Proof. destruct r; [apply preserves_ret|apply preserves_raise]. Qed.

Lemma preserves_read : preserves R read.
Proof. intros s. reflexivity. Qed.

Lemma preserves_bind {A B} (m : M A) (f : A -> M B) :
  preserves R m -> (forall a, preserves R (f a)) -> preserves R (m ≫= f).
Proof.
  intros Hm Hf s. unfold mbind, M_bind. specialize (Hm s).
  destruct (m s) as [a s'|e s']; cbn in Hm; [|exact Hm].
  etransitivity; [exact Hm|apply Hf].
Qed.

Lemma preserves_try_except {A} (body : M A) handler :
  preserves R body -> (forall e, preserves R (handler e)) ->
  preserves R (try_except body handler).
Proof.
  intros Hb Hh s. unfold try_except. specialize (Hb s).
  destruct (body s) as [a s'|e s']; cbn in Hb; [exact Hb|].
  etransitivity; [exact Hb|apply Hh].
Qed.

Lemma preserves_try_except_on {A} caught (body : M A) handler :
  preserves R body -> (forall e, preserves R (handler e)) ->
  preserves R (try_except_on caught body handler).
Proof.
  intros Hb Hh s. unfold try_except_on. specialize (Hb s).
  destruct (body s) as [a s'|e s']; cbn in Hb; [exact Hb|].
  destruct (caught e); [|exact Hb].
  etransitivity; [exact Hb|apply Hh].
Qed.

Lemma preserves_for_each {A} (l : list A) body :
  (forall x, preserves R (body x)) -> preserves R (for_each l body).
Proof.
  intros Hb. induction l as [|x l IH]; cbn [for_each].
  - apply preserves_ret.
  - apply preserves_bind; [apply Hb|intros _; exact IH].
Qed.
End Preserves.

Lemma preserves_weaken {A} (m : M A) :
  preserves keeps_active m -> preserves grows_active m.
Proof. intros H s. apply keeps_grows, H. Qed.

(** Breaking a method body into its calls. *)
Ltac into_body :=
  repeat lazymatch goal with
    | |- preserves _ (mret _) => apply preserves_ret; apply _
    | |- preserves _ (raise _) => apply preserves_raise; apply _
    | |- preserves _ (eval _) => apply preserves_eval; apply _
    | |- preserves _ read => apply preserves_read; apply _
    | |- preserves _ (mbind _ _) => apply preserves_bind; [apply _| |intros ?]
    | |- preserves _ (for_each _ _) => apply preserves_for_each; [apply _|intros ?]
    | |- preserves _ (try_except _ _) =>
        apply preserves_try_except; [apply _| |intros ?]
    | |- preserves _ (try_except_on _ _ _) =>
        apply preserves_try_except_on; [apply _| |intros ?]
    | |- preserves _ (if ?b then _ else _) => destruct b
    | |- preserves _ (match ?x with [] => _ | _ :: _ => _ end) => destruct x
    end.

Create HintDb engine.

Lemma keeps_logger e : preserves keeps_active (logger e).
Proof. intros s. reflexivity. Qed.

Lemma keeps_schedule_every_seconds_do n f :
  preserves keeps_active (schedule_every_seconds_do n f).
Proof. intros s. reflexivity. Qed.

Lemma keeps_schedule_clear : preserves keeps_active schedule_clear.
Proof. intros s. reflexivity. Qed.

Lemma keeps_interval_of k : preserves keeps_active (interval_of k).
Proof. intros s. unfold interval_of. destruct (_ !! _); reflexivity. Qed.

Lemma keeps_assign_threat_level v : preserves keeps_active (assign (set_threat_level v)).
Proof. intros s. reflexivity. Qed.

Lemma keeps_assign_monitoring_intervals v :
  preserves keeps_active (assign (set_monitoring_intervals v)).
Proof. intros s. reflexivity. Qed.

Lemma keeps_assign_task_queue v : preserves keeps_active (assign (set_task_queue v)).
Proof. intros s. reflexivity. Qed.

Lemma keeps_receive_message m : preserves keeps_active (receive_message m).
Proof. intros s. reflexivity. Qed.

#[local] Hint Resolve keeps_logger keeps_schedule_every_seconds_do keeps_schedule_clear
  keeps_interval_of keeps_assign_threat_level keeps_assign_monitoring_intervals
  keeps_assign_task_queue keeps_receive_message : engine.

Lemma keeps__init_monitoring : preserves keeps_active _init_monitoring.
Proof. unfold _init_monitoring. into_body; auto with engine. Qed.
#[local] Hint Resolve keeps__init_monitoring : engine.

Lemma keeps__adjust_monitoring : preserves keeps_active _adjust_monitoring.
Proof. unfold _adjust_monitoring. into_body; auto with engine. Qed.
#[local] Hint Resolve keeps__adjust_monitoring : engine.

Lemma keeps__update_threat_level d : preserves keeps_active (_update_threat_level d).
Proof. unfold _update_threat_level. into_body; auto with engine. Qed.
#[local] Hint Resolve keeps__update_threat_level : engine.

Lemma keeps_actions :
  preserves keeps_active _isolate_network
  /\ preserves keeps_active _suspend_non_critical_processes
  /\ preserves keeps_active _enhance_monitoring
  /\ preserves keeps_active _restrict_process_creation
  /\ preserves keeps_active _freeze_content_assets
  /\ preserves keeps_active _enable_enhanced_logging
  /\ preserves keeps_active _backup_critical_data
  /\ (forall r t, preserves keeps_active (_send_results r t)).
Proof.
  unfold _isolate_network, run_checked, _suspend_non_critical_processes,
    _enhance_monitoring, _restrict_process_creation, _freeze_content_assets,
    _enable_enhanced_logging, _backup_critical_data, _send_results.
  repeat split; intros; into_body; auto with engine.
Qed.

Lemma grows_append_countermeasure m : preserves grows_active (append_countermeasure m).
Proof. intros s x Hx. cbn. apply elem_of_app. left. exact Hx. Qed.

Lemma grows_activate_loop measures activated :
  preserves grows_active (activate_loop measures activated).
Proof.
  destruct keeps_actions as (?&?&?&?&_).
  revert activated. induction measures as [|m ms IH]; intros activated; cbn [activate_loop].
  - apply preserves_ret, _.
  - into_body; auto using grows_append_countermeasure, preserves_weaken.
Qed.

Lemma grows__activate_countermeasures measures :
  preserves grows_active (_activate_countermeasures measures).
Proof.
  unfold _activate_countermeasures.
  into_body; auto using grows_activate_loop, preserves_weaken with engine.
Qed.

Lemma grows__activate_lockdown : preserves grows_active _activate_lockdown.
Proof.
  destruct keeps_actions as (_&_&_&_&?&?&?&?).
  unfold _activate_lockdown, lockdown_step.
  into_body; auto using grows_append_countermeasure, preserves_weaken with engine.
Qed.

Lemma grows_perform op : preserves grows_active (perform op).
Proof.
  destruct keeps_actions as (_&_&_&_&_&_&_&?).
  destruct op as [d|c ds sev|task| |ms|msg]; cbn [perform].
  - auto using preserves_weaken with engine.
  - unfold _handle_suspicious_activity.
    into_body;
      auto using grows__activate_lockdown, grows__activate_countermeasures,
        preserves_weaken with engine.
  - unfold _handle_threat_alert.
    into_body;
      auto using grows__activate_lockdown, grows__activate_countermeasures,
        preserves_weaken with engine.
  - apply grows__activate_lockdown.
  - apply grows__activate_countermeasures.
  - auto using preserves_weaken with engine.
Qed.

(** ** Activating measures *)



Lemma add_missing_NoDup measures active :
  NoDup active -> NoDup (add_missing measures active).
Proof.
  revert active. induction measures as [|m ms IH]; intros active H; cbn [add_missing].
  - exact H.
  - apply IH. case_bool_decide as Hm; [exact H|].
    apply NoDup_app. split; [exact H|]. split.
    + intros x Hx Hx'. apply list_elem_of_singleton in Hx'. congruence.
    + apply NoDup_singleton.
Qed.


(** The loop of [_activate_lockdown] always returns; it changes the
    active measures and the log only. *)
Lemma lockdown_loop measures s :
  exists lg,
    for_each measures lockdown_step s
    = Returned ()
        (set_log lg
           (set_active_countermeasures
              (add_missing measures (active_countermeasures s)) s)).
Proof.
  revert s. induction measures as [|m ms IH]; intros s.
  - exists (log s). destruct s; reflexivity.
  - cbn [for_each add_missing]. unfold mbind, M_bind.
    unfold lockdown_step at 1. unfold_m. cbn beta.
    case_bool_decide as Hm.
    + apply IH.
    + unfold _freeze_content_assets, _enable_enhanced_logging,
        _backup_critical_data, append_countermeasure, logger.
      cbn beta iota.
      repeat case_step; cbn beta iota;
        match goal with
        | |- context [for_each ms lockdown_step ?s1] =>
            destruct (IH s1) as [lg ->]; exists lg; reflexivity
        end.
Qed.

Lemma _activate_lockdown_noop s :
  "lockdown" ∈ active_countermeasures s -> _activate_lockdown s = Returned () s.
Proof.
  intros H. unfold _activate_lockdown. unfold_m.
  rewrite bool_decide_eq_true_2 by exact H. reflexivity.
Qed.

Lemma _activate_lockdown_adds s :
  "lockdown" ∉ active_countermeasures s ->
  exists lg,
    _activate_lockdown s
    = Returned ()
        (set_log lg
           (set_active_countermeasures
              (add_missing lockdown_measures (active_countermeasures s)) s)).
Proof.
  intros H. unfold _activate_lockdown, _send_results. unfold_m.
  rewrite bool_decide_eq_false_2 by exact H.
  match goal with
  | |- context [for_each lockdown_measures lockdown_step ?s1] =>
      destruct (lockdown_loop lockdown_measures s1) as [lg ->]
  end.
  eexists. reflexivity.
Qed.




(** The worker's loop, for an environment whose own handlers leave the
    active measures in place. *)
Section WorkerGrows.
Variable env : Env.
Hypothesis scan_grows : preserves grows_active (_full_system_scan env).
Hypothesis whitelist_grows :
  forall task, preserves grows_active (_update_whitelist env task).
Hypothesis tick_grows : preserves grows_active (schedule_run_pending env).

Lemma grows__process_task task : preserves grows_active (_process_task env task).
Proof.
  unfold _process_task, _decrypt_task.
  into_body;
    auto using grows__activate_lockdown, preserves_weaken with engine.
  exact (grows_perform (ThreatAlertTask _)).
Qed.

Lemma grows_run turns : preserves grows_active (run env turns).
Proof.
  induction turns as [|n IH]; cbn [run]; [apply preserves_ret, _|].
  unfold run_once.
  into_body; auto using grows__process_task, preserves_weaken with engine.
Qed.
End WorkerGrows.

(** C8: an update never touches the active measures, so they are the
    same after the call as before it, also for [update(-100)] at level
    10 with the lockdown measures active; every call that acts on the
    threat state leaves at least the measures that were active; and
    [shutdown] empties the list. *)
Theorem active_countermeasures_only_grow :
  (forall s d,
     active_countermeasures (final (_update_threat_level d s))
     = active_countermeasures s)
  /\ (forall op s,
        active_countermeasures s ⊆ active_countermeasures (final (perform op s)))
  /\ (forall env,
        preserves grows_active (_full_system_scan env) ->
        (forall task, preserves grows_active (_update_whitelist env task)) ->
        preserves grows_active (schedule_run_pending env) ->
        forall turns s,
          active_countermeasures s ⊆ active_countermeasures (final (run env turns s)))
  /\ (forall s, active_countermeasures (final (shutdown s)) = [])
  /\ (threat_level locked_down = 10
      /\ active_countermeasures locked_down = lockdown_measures
      /\ active_countermeasures (final (_update_threat_level (-100) locked_down))
         = lockdown_measures).
Proof.
  split; [intros s d; apply keeps__update_threat_level|].
  split; [intros op s; apply grows_perform|].
  split; [intros env H1 H2 H3 turns s; apply grows_run; assumption|].
  split.
  - intros s. unfold shutdown. unfold_m. cbn.
    destruct (active_countermeasures s) eqn:E; cbn; [exact E|reflexivity].
  - repeat split; vm_compute; reflexivity.
Qed.

(** ** The handlers *)

Lemma bind_returned {A B} (m : M A) (f : A -> M B) s a s' :
  m s = Returned a s' -> (m ≫= f) s = f a s'.
Proof. intros H. unfold mbind, M_bind. rewrite H. reflexivity. Qed.

Lemma _activate_lockdown_returns s :
  exists s',
    _activate_lockdown s = Returned () s'
    /\ threat_level s' = threat_level s
    /\ active_countermeasures s' = with_lockdown (active_countermeasures s).
Proof.
  unfold with_lockdown. case_bool_decide as H.
  - exists s. rewrite _activate_lockdown_noop by exact H. auto.
  - destruct (_activate_lockdown_adds s H) as [lg ->]. eexists. repeat split.
Qed.

(** ** The actions that go to the operating system *)

Lemma _isolate_network_returns s :
  (forall c, subprocess_run (host s) c = Ok ()
             \/ subprocess_run (host s) c = Raise CalledProcessError) ->
  exists ev, _isolate_network s = Returned () (set_log (log s ++ [ev]) s).
Proof.
  intros H. unfold _isolate_network, try_except_on, run_checked. unfold_m.
  destruct (H (netsh_disable "Ethernet")) as [-> | ->]; cbn;
    [|eexists; reflexivity].
  destruct (H (netsh_disable "Wi-Fi")) as [-> | ->]; cbn; eexists; reflexivity.
Qed.

Lemma suspend_loop_returns h procs : forall suspended,
  Forall (fun proc =>
            forall e,
              proc_name proc = Raise e \/ proc_suspend proc = Raise e
              \/ proc_name_suspended proc = Raise e ->
              gone_or_denied e = true) procs ->
  exists names, suspend_loop h procs suspended = Ok names.
Proof.
  induction procs as [|proc procs IH]; intros suspended H.
  - exists suspended. reflexivity.
  - apply Forall_cons in H as [Hp H]. cbn [suspend_loop].
    destruct (suspend_unless_critical h proc) as [names|e] eqn:E;
      [apply IH; exact H|].
    assert (He : gone_or_denied e = true).
    { apply Hp. unfold suspend_unless_critical in E.
      destruct (proc_name proc) as [n|e1];
        [|injection E as <-; left; reflexivity].
      cbn [mbind result_bind] in E.
      destruct (negb _ && negb _); [|discriminate E].
      destruct (proc_suspend proc) as [[]|e2];
        [|injection E as <-; right; left; reflexivity].
      cbn [mbind result_bind] in E.
      destruct (proc_name_suspended proc) as [n'|e3]; [discriminate E|].
      injection E as <-. right. right. reflexivity. }
    rewrite He. apply IH. exact H.
Qed.

Lemma _suspend_non_critical_processes_returns s :
  Forall (fun proc =>
            forall e,
              proc_name proc = Raise e \/ proc_suspend proc = Raise e
              \/ proc_name_suspended proc = Raise e ->
              gone_or_denied e = true) (process_iter (host s)) ->
  exists lg, _suspend_non_critical_processes s = Returned () (set_log lg s).
Proof.
  intros H. unfold _suspend_non_critical_processes. unfold_m.
  destruct (suspend_loop_returns (host s) _ [] H) as [names ->]. cbn.
  destruct names; [exists (log s); destruct s; reflexivity|].
  eexists. reflexivity.
Qed.

(** At a level between 0 and 10, and on a cooperative host when one of
    the measures goes to the operating system, the loop of
    [_activate_countermeasures] returns and leaves the measures of
    [add_missing] active. *)
Lemma activate_loop_small measures activated s :
  0 <= threat_level s <= 10 ->
  cooperative (host s)
  \/ (("isolate_network" ∉ measures) /\ ("suspend_non_critical" ∉ measures)) ->
  exists activated' s',
    activate_loop measures activated s = Returned activated' s'
    /\ threat_level s' = threat_level s
    /\ active_countermeasures s' = add_missing measures (active_countermeasures s)
    /\ host s' = host s.
Proof.
  revert activated s. induction measures as [|m ms IH]; intros activated s Hl Hh.
  - exists activated, s. repeat split.
  - assert (Hh' : cooperative (host s)
                  \/ (("isolate_network" ∉ ms) /\ ("suspend_non_critical" ∉ ms))).
    { destruct Hh as [Hh|[H1 H2]]; [left; exact Hh|right].
      split; intros Hin; [apply H1|apply H2]; right; exact Hin. }
    cbn [activate_loop add_missing].
    rewrite (bind_returned read _ s s s) by reflexivity.
    case_bool_decide as Hm; [apply IH; assumption|].
    rewrite (bind_returned (append_countermeasure m) _ s ()
               (set_active_countermeasures (active_countermeasures s ++ [m]) s))
      by reflexivity.
    set (s1 := set_active_countermeasures (active_countermeasures s ++ [m]) s).
    assert (Hact : exists s2,
               (if String.eqb m "isolate_network" then _isolate_network
                else if String.eqb m "suspend_non_critical"
                     then _suspend_non_critical_processes
                else if String.eqb m "enhanced_monitoring" then _enhance_monitoring
                else if String.eqb m "process_restrictions"
                     then _restrict_process_creation
                else mret ()) s1 = Returned () s2
               /\ threat_level s2 = threat_level s1
               /\ active_countermeasures s2 = active_countermeasures s1
               /\ host s2 = host s1).
    { destruct (String.eqb m "isolate_network") eqn:E1.
      { apply String.eqb_eq in E1. subst m.
        destruct Hh as [[Hrun _]|[Hn _]]; [|exfalso; apply Hn; left].
        destruct (_isolate_network_returns s1 Hrun) as [ev ->].
        eexists. repeat split. }
      destruct (String.eqb m "suspend_non_critical") eqn:E2.
      { apply String.eqb_eq in E2. subst m.
        destruct Hh as [[_ Hps]|[_ Hn]]; [|exfalso; apply Hn; left].
        destruct (_suspend_non_critical_processes_returns s1 Hps) as [lg ->].
        eexists. repeat split. }
      repeat case_step; try (eexists; repeat split; reflexivity).
      unfold _enhance_monitoring.
      erewrite bind_returned by reflexivity.
      erewrite bind_returned by (apply _adjust_monitoring_small; exact Hl).
      eexists. repeat split. }
    destruct Hact as (s2 & E2 & Hl2 & Ha2 & Hh2).
    rewrite (bind_returned _ _ s1 () s2 E2).
    destruct (IH (activated ++ [m]) s2) as (acc & s3 & E3 & Hl3 & Ha3 & Hh3).
    { rewrite Hl2. exact Hl. }
    { rewrite Hh2. exact Hh'. }
    subst s1. cbn in Hl2, Ha2, Hh2.
    exists acc, s3. split; [exact E3|]. split; [congruence|].
    split; [|congruence].
    rewrite Ha3, Ha2. reflexivity.
Qed.

Lemma _activate_countermeasures_small measures s :
  0 <= threat_level s <= 10 ->
  cooperative (host s)
  \/ (("isolate_network" ∉ measures) /\ ("suspend_non_critical" ∉ measures)) ->
  exists s',
    _activate_countermeasures measures s = Returned () s'
    /\ threat_level s' = threat_level s
    /\ active_countermeasures s' = add_missing measures (active_countermeasures s)
    /\ host s' = host s.
Proof.
  intros Hl Hh. unfold _activate_countermeasures.
  destruct (activate_loop_small measures [] s Hl Hh)
    as (acc & s1 & E & Hl1 & Ha1 & Hh1).
  rewrite (bind_returned _ _ s acc s1 E).
  destruct acc; eexists; (split; [reflexivity|]); cbn; auto.
Qed.

Lemma reduced_measures_stay_inside :
  ("isolate_network" ∉ reduced_measures)
  /\ ("suspend_non_critical" ∉ reduced_measures).
Proof.
  unfold reduced_measures.
  split; rewrite !elem_of_cons, elem_of_nil; intros [H|[H|[]]]; discriminate H.
Qed.

Lemma _update_threat_level_small s d :
  0 <= threat_level s + d ->
  exists s',
    _update_threat_level d s = Returned () s'
    /\ threat_level s' = Z.min 10 (threat_level s + d)
    /\ active_countermeasures s' = active_countermeasures s
    /\ host s' = host s.
Proof.
  intros H0.
  destruct (decide (Z.min 10 (threat_level s + d) = threat_level s)) as [E|E].
  - rewrite _update_threat_level_unchanged by exact E. exists s. auto.
  - rewrite _update_threat_level_changed by assumption.
    eexists. split; [reflexivity|]. repeat split.
Qed.

Lemma bind_raised {A B} (m : M A) (f : A -> M B) s e s' :
  m s = Raised e s' -> (m ≫= f) s = Raised e s'.
Proof. intros H. unfold mbind, M_bind. rewrite H. reflexivity. Qed.

Lemma _isolate_network_raises s e :
  subprocess_run (host s) (netsh_disable "Ethernet") = Raise e ->
  is_CalledProcessError e = false ->
  _isolate_network s = Raised e s.
Proof.
  intros Hrun He. unfold _isolate_network, try_except_on, run_checked. unfold_m.
  rewrite Hrun. cbn. rewrite He. reflexivity.
Qed.

(** C2 (as stated) fails: a suspicious activity of severity 4 on the
    initial sentinel leaves level 4 and no active measure, and an update
    by 12 on its own leaves level 10 and no active measure. *)
Lemma policy_is_not_on_the_resulting_level :
  ~ policy_on_resulting_level init
      (final (_handle_suspicious_activity (py "network") (py "connections") 4 init))
  /\ ~ policy_on_resulting_level init (final (_update_threat_level 12 init)).
Proof.
  split.
  - intros (_ & H & _).
    assert (Hin : "enhanced_monitoring" ∈ ([] : list string)).
    { refine (H _ "enhanced_monitoring" _).
      - vm_compute. split; [discriminate|reflexivity].
      - unfold reduced_measures. left. }
    inversion Hin.
  - intros (H & _).
    assert (Hin : "isolate_network" ∈ ([] : list string)).
    { refine (H _ "isolate_network" _).
      - vm_compute. discriminate.
      - unfold lockdown_measures. left. }
    inversion Hin.
Qed.

(** C2 (as amended): the policy sits in the handlers that call the
    update, which applies none itself.  For a call that does not leave
    a negative level: [_handle_suspicious_activity] decides on the
    severity it was given: from 8 on the lockdown, from 5 to 7 the
    reduced measures, below 5 nothing.  [_handle_threat_alert] decides
    on the level the update left: from 7 on the lockdown, below 4
    nothing, and from 4 to 6 the measures [isolate_network] and
    [suspend_non_critical], which need the host: on a cooperative host
    both become active and the call returns; where [netsh] cannot be
    run, the call raises with [isolate_network] listed and nothing
    isolated.  A report of severity 12 on the initial sentinel gives
    level 10 and the five lockdown measures, each once. *)
Theorem policy_of_the_handlers :
  (forall s category description severity,
     0 <= threat_level s + severity ->
     exists s',
       _handle_suspicious_activity category description severity s = Returned () s'
       /\ threat_level s' = Z.min 10 (threat_level s + severity)
       /\ active_countermeasures s'
          = if 8 <=? severity then with_lockdown (active_countermeasures s)
            else if 5 <=? severity
                 then add_missing reduced_measures (active_countermeasures s)
            else active_countermeasures s)
  /\ (forall s description severity,
        0 <= threat_level s + severity ->
        (4 <= Z.min 10 (threat_level s + severity) < 7 -> cooperative (host s)) ->
        exists s',
          _handle_threat_alert (threat_alert_task description severity) s
          = Returned () s'
          /\ threat_level s' = Z.min 10 (threat_level s + severity)
          /\ active_countermeasures s'
             = if 7 <=? threat_level s' then with_lockdown (active_countermeasures s)
               else if 4 <=? threat_level s'
                    then add_missing ["isolate_network"; "suspend_non_critical"]
                           (active_countermeasures s)
               else active_countermeasures s)
  /\ (forall s description severity e,
        0 <= threat_level s + severity ->
        4 <= Z.min 10 (threat_level s + severity) < 7 ->
        "isolate_network" ∉ active_countermeasures s ->
        subprocess_run (host s) (netsh_disable "Ethernet") = Raise e ->
        is_CalledProcessError e = false ->
        exists s',
          _handle_threat_alert (threat_alert_task description severity) s
          = Raised e s'
          /\ threat_level s' = Z.min 10 (threat_level s + severity)
          /\ active_countermeasures s'
             = active_countermeasures s ++ ["isolate_network"])
  /\ (forall s d,
        active_countermeasures (final (_update_threat_level d s))
        = active_countermeasures s)
  /\ (threat_level locked_down = 10
      /\ active_countermeasures locked_down = lockdown_measures).
Proof.
  split; [|split; [|split; [|split]]].
  - intros s c ds sev H0. unfold _handle_suspicious_activity, _send_results.
    erewrite bind_returned by reflexivity.
    match goal with
    | |- context [mbind _ (_update_threat_level sev) ?s0] =>
        destruct (_update_threat_level_small s0 sev H0)
          as (s1 & E1 & Hl1 & Ha1 & Hh1)
    end.
    erewrite bind_returned by exact E1.
    cbn [threat_level active_countermeasures set_log] in Hl1, Ha1.
    destruct (8 <=? sev) eqn:E8.
    + destruct (_activate_lockdown_returns s1) as (s2 & E2 & Hl2 & Ha2).
      erewrite bind_returned by exact E2.
      eexists. split; [reflexivity|].
        cbn [threat_level active_countermeasures set_log]. split; congruence.
    + destruct (5 <=? sev) eqn:E5.
      * destruct (_activate_countermeasures_small reduced_measures s1)
          as (s2 & E2 & Hl2 & Ha2 & _);
          [lia|right; exact reduced_measures_stay_inside|].
        erewrite bind_returned by exact E2.
        eexists. split; [reflexivity|].
        cbn [threat_level active_countermeasures set_log]. split; congruence.
      * erewrite bind_returned by reflexivity.
        eexists. split; [reflexivity|].
        cbn [threat_level active_countermeasures set_log]. split; congruence.
  - intros s ds sev H0 Hco. unfold _handle_threat_alert, threat_alert_task.
    do 2 (erewrite bind_returned by reflexivity).
    erewrite bind_returned by reflexivity.
    do 2 (erewrite bind_returned by reflexivity).
    match goal with
    | |- context [mbind _ (_update_threat_level sev) ?s0] =>
        destruct (_update_threat_level_small s0 sev H0)
          as (s1 & E1 & Hl1 & Ha1 & Hh1)
    end.
    erewrite bind_returned by exact E1.
    cbn [threat_level active_countermeasures set_log host] in Hl1, Ha1, Hh1.
    erewrite bind_returned by reflexivity.
    destruct (7 <=? threat_level s1) eqn:E7.
    + destruct (_activate_lockdown_returns s1) as (s2 & E2 & Hl2 & Ha2).
      exists s2. rewrite Hl2, E7. split; [exact E2|]. split; congruence.
    + destruct (4 <=? threat_level s1) eqn:E4.
      * destruct (_activate_countermeasures_small
                    ["isolate_network"; "suspend_non_critical"] s1)
          as (s2 & E2 & Hl2 & Ha2 & _); [lia|left; rewrite Hh1; apply Hco; lia|].
        exists s2. rewrite Hl2, E7, E4. split; [exact E2|]. split; congruence.
      * exists s1. rewrite E7, E4. split; [reflexivity|]. split; congruence.
  - intros s ds sev e H0 Hlv Hnot Hrun He.
    unfold _handle_threat_alert, threat_alert_task.
    do 2 (erewrite bind_returned by reflexivity).
    erewrite bind_returned by reflexivity.
    do 2 (erewrite bind_returned by reflexivity).
    match goal with
    | |- context [mbind _ (_update_threat_level sev) ?s0] =>
        destruct (_update_threat_level_small s0 sev H0)
          as (s1 & E1 & Hl1 & Ha1 & Hh1)
    end.
    erewrite bind_returned by exact E1.
    cbn [threat_level active_countermeasures set_log host] in Hl1, Ha1, Hh1.
    erewrite bind_returned by reflexivity.
    replace (7 <=? threat_level s1) with false by (symmetry; apply Z.leb_gt; lia).
    replace (4 <=? threat_level s1) with true by (symmetry; apply Z.leb_le; lia).
    exists (set_active_countermeasures
              (active_countermeasures s1 ++ ["isolate_network"]) s1).
    split; [|split; [exact Hl1|cbn; rewrite Ha1; reflexivity]].
    unfold _activate_countermeasures. apply bind_raised.
    cbn [activate_loop].
    erewrite bind_returned by reflexivity.
    rewrite bool_decide_eq_false_2 by (rewrite Ha1; exact Hnot).
    erewrite bind_returned by reflexivity.
    apply bind_raised. cbn [String.eqb Ascii.eqb Bool.eqb].
    apply _isolate_network_raises; [|exact He].
    cbn [host set_active_countermeasures]. rewrite Hh1. exact Hrun.
  - intros s d. apply keeps__update_threat_level.
  - split; vm_compute; reflexivity.
Qed.

Lemma policy_of_the_handlers_witness :
  (exists s',
     _handle_suspicious_activity (py "integrity") (py "files modified") 12 init
     = Returned () s'
     /\ threat_level s' = Z.min 10 (threat_level init + 12)
     /\ active_countermeasures s'
        = if 8 <=? 12 then with_lockdown (active_countermeasures init)
          else if 5 <=? 12
               then add_missing reduced_measures (active_countermeasures init)
          else active_countermeasures init)
  /\ (exists s',
        _handle_threat_alert (threat_alert_task (py "port scan") 5) init
        = Returned () s'
        /\ threat_level s' = Z.min 10 (threat_level init + 5)
        /\ active_countermeasures s'
           = if 7 <=? threat_level s' then with_lockdown (active_countermeasures init)
             else if 4 <=? threat_level s'
                  then add_missing ["isolate_network"; "suspend_non_critical"]
                         (active_countermeasures init)
             else active_countermeasures init)
  /\ (exists s',
        _handle_threat_alert (threat_alert_task (py "port scan") 5)
          (set_host without_netsh init)
        = Raised FileNotFoundError s'
        /\ threat_level s'
           = Z.min 10 (threat_level (set_host without_netsh init) + 5)
        /\ active_countermeasures s'
           = active_countermeasures (set_host without_netsh init)
             ++ ["isolate_network"]).
Proof.
  split; [|split].
  - apply (proj1 policy_of_the_handlers).
    vm_compute. discriminate.
  - apply (proj1 (proj2 policy_of_the_handlers)).
    + vm_compute. discriminate.
    + intros _. split; [intros c; left; reflexivity|constructor].
  - apply (proj1 (proj2 (proj2 policy_of_the_handlers))).
    + vm_compute. discriminate.
    + vm_compute. split; [discriminate|reflexivity].
    + intros H. inversion H.
    + reflexivity.
    + reflexivity.
Defined.

Lemma active_countermeasures_only_grow_witness :
  active_countermeasures locked_down
  ⊆ active_countermeasures
      (final (run refusing 3 (final (receive_message sample_encrypted locked_down)))).
Proof.
  etransitivity;
    [apply (proj1 (proj2 active_countermeasures_only_grow)
              (Receive sample_encrypted) locked_down)|].
  apply (proj1 (proj2 (proj2 active_countermeasures_only_grow)) refusing).
  - intros s. reflexivity.
  - intros task s. reflexivity.
  - intros s. reflexivity.
Defined.

(** C1 (the code departs from it): an update leaves the level at
    [min(10, level + delta)]: it is capped at 10 but has no floor at 0.
    From the initial sentinel, [update(12)] gives level 10, and
    [update(-100)] then returns normally with level -90; so does a
    threat alert of severity -100. *)
Theorem update_has_no_floor :
  (forall s d,
     threat_level (final (_update_threat_level d s)) = Z.min 10 (threat_level s + d))
  /\ threat_level at_level_10 = 10
  /\ returns (_update_threat_level (-100) at_level_10) = true
  /\ threat_level (final (_update_threat_level (-100) at_level_10)) = -90
  /\ threat_level
       (final (_handle_threat_alert
                 (threat_alert_task (py "all clear") (-100)) at_level_10)) = -90.
Proof.
  split; [exact threat_level_after_update|].
  repeat split; vm_compute; reflexivity.
Qed.

(** C3 (as stated) fails: after [update(1)] on the initial sentinel the
    network interval is 4, while the formula gives 19/4. *)
Lemma intervals_are_truncated :
  ~ follows_formula (final (_update_threat_level 1 init)).
Proof.
  intros H. destruct (H "network" 5) as [v [Hv Hq]].
  - vm_compute. left.
  - vm_compute in Hv. injection Hv as <-. vm_compute in Hq. discriminate Hq.
Qed.

(** C3 (as amended): when an update changes the level, to a level that
    is not negative, every category's interval becomes
    [max(1, int(base * max(0.1, 1 - level*0.05)))], the product being
    truncated to an integer, and the scheduler holds exactly one job per
    category at that interval, whatever it held before; when the level
    stays the same the call changes nothing. *)
Theorem update_adjusts_monitoring s d :
  let new_level := Z.min 10 (threat_level s + d) in
  (new_level <> threat_level s -> 0 <= new_level ->
     exists s',
       _update_threat_level d s = Returned () s'
       /\ threat_level s' = new_level
       /\ monitoring_intervals s' = interval_table new_level
       /\ jobs s' = monitoring_jobs new_level)
  /\ (new_level = threat_level s -> _update_threat_level d s = Returned () s).
Proof.
  cbv zeta. split.
  - intros Hne H0. eexists. split.
    + apply _update_threat_level_changed; [exact Hne|lia].
    + repeat split.
  - apply _update_threat_level_unchanged.
Qed.

Lemma update_adjusts_monitoring_witness :
  exists s',
    _update_threat_level 1 init = Returned () s'
    /\ threat_level s' = 1
    /\ monitoring_intervals s' = interval_table 1
    /\ jobs s' = monitoring_jobs 1.
Proof.
  apply (proj1 (update_adjusts_monitoring init 1)).
  - vm_compute. discriminate.
  - vm_compute. discriminate.
Defined.

(** ** The repository's tests, replayed on the embedding *)

(** [test_threat_level_management] and [test_threat_level_update]. *)
Example test_threat_level_management :
  level_after [5] = 5 /\ level_after [5; -3] = 2 /\ level_after [5; -3; 15] = 10
  /\ level_after [5; -2] = 3.
Proof. repeat split; vm_compute; reflexivity. Qed.

(** [test_handle_suspicious_activity] and the alert of severity 8 of
    [test_commander_to_sentinel_alert_flow]. *)
Example test_handlers :
  threat_level
    (final (_handle_suspicious_activity (py "network")
              (py "Test suspicious activity") 5 init)) = 5
  /\ threat_level
       (final (_handle_threat_alert
                 (threat_alert_task (py "Unauthorized access attempt") 8) init)) = 8.
Proof. split; vm_compute; reflexivity. Qed.

(** The intervals at the two ends of the scale. *)
Example intervals_at_0_and_10 :
  (fun m : gmap string Z =>
     (m !! "network", m !! "process", m !! "performance", m !! "integrity"))
    (monitoring_intervals init)
  = (Some 5, Some 10, Some 15, Some 30)
  /\ (fun m : gmap string Z =>
        (m !! "network", m !! "process", m !! "performance", m !! "integrity"))
       (monitoring_intervals at_level_10)
     = (Some 2, Some 5, Some 7, Some 15).
Proof. split; vm_compute; reflexivity. Qed.

(** [test_lockdown_protocol] expects ['lockdown'] among the active
    measures after [_activate_lockdown]; the method never lists it. *)
Example lockdown_is_never_listed :
  active_countermeasures (final (_activate_lockdown init)) = lockdown_measures
  /\ "lockdown" ∉ active_countermeasures (final (_activate_lockdown init)).
Proof.
  split; [vm_compute; reflexivity|].
  replace (active_countermeasures (final (_activate_lockdown init)))
    with lockdown_measures by (vm_compute; reflexivity).
  unfold lockdown_measures. rewrite !elem_of_cons, elem_of_nil.
  intros [H|[H|[H|[H|[H|[]]]]]]; discriminate H.
Qed.

(** ** The worker *)

Section Dispatch.
Variable env : Env.

(** C5: when the decryption of an encrypted task raises, be it at the
    lookup of the payload, in the crypto object or in [json.loads], the
    worker logs the failure and puts the marker task
    [{'error': 'decryption_failed'}] in the task's place; the marker
    has no ['type'], so that no handler runs on it; the call returns,
    the loop of [run] goes on with the rest of the queue, and
    [receive_message], all the producer calls, returns whatever
    happens in the worker. *)
Theorem decryption_failure_stays_in_the_worker task e s :
  contains "encrypted" task = true ->
  (p ← getitem (PDict task) "payload";
   decrypted ← crypto_decrypt env p;
   json_loads env decrypted) = Raise e ->
  _decrypt_task env task s
  = Returned (PDict [(py "error", PStr (py "decryption_failed"))])
      (set_log (log s ++ [DecryptionFailed e]) s)
  /\ _process_task env task s
     = Returned ()
         (set_log (log s ++ [DecryptionFailed e; UnknownTaskType PNone]) s)
  /\ (forall rest turns,
        task_queue s = task :: rest -> running s = true ->
        run env (S turns) s
        = run env turns
            (set_log (log s ++ [DecryptionFailed e; UnknownTaskType PNone])
               (set_task_queue rest s)))
  /\ (forall s0 message,
        receive_message message s0
        = Returned () (set_task_queue (task_queue s0 ++ [message]) s0)).
Proof.
  intros Henc He.
  assert (Hd : forall s1, _decrypt_task env task s1
               = Returned (PDict [(py "error", PStr (py "decryption_failed"))])
                   (set_log (log s1 ++ [DecryptionFailed e]) s1)).
  { intros s1. unfold _decrypt_task, try_except. unfold_m.
    destruct (getitem (PDict task) "payload") as [p|e1]; cbn in He |- *;
      [|injection He as <-; reflexivity].
    destruct (crypto_decrypt env p) as [decrypted|e2]; cbn in He |- *;
      [|injection He as <-; reflexivity].
    rewrite He. reflexivity. }
  assert (Hpt : forall s1, _process_task env task s1
                = Returned ()
                    (set_log (log s1 ++ [DecryptionFailed e; UnknownTaskType PNone]) s1)).
  { intros s1. unfold _process_task. rewrite Henc.
    erewrite bind_returned by apply Hd.
    replace (get (PDict [(py "error", PStr (py "decryption_failed"))]) "type" PNone)
      with (Ok PNone) by (vm_compute; reflexivity).
    erewrite bind_returned by reflexivity.
    cbn [is_type]. unfold logger. cbn [log set_log].
    rewrite <- app_assoc. reflexivity. }
  split; [apply Hd|]. split; [apply Hpt|]. split.
  - intros rest turns Hq Hr. cbn [run].
    erewrite bind_returned by reflexivity. rewrite Hr.
    unfold run_once.
    erewrite bind_returned;
      [|erewrite bind_returned by reflexivity; rewrite Hq;
        erewrite bind_returned by reflexivity; apply Hpt].
    reflexivity.
  - reflexivity.
Qed.
End Dispatch.

Lemma decryption_failure_stays_in_the_worker_witness :
  _decrypt_task refusing sample_encrypted init
  = Returned (PDict [(py "error", PStr (py "decryption_failed"))])
      (set_log (log init ++ [DecryptionFailed InvalidToken]) init)
  /\ _process_task refusing sample_encrypted init
     = Returned ()
         (set_log (log init ++ [DecryptionFailed InvalidToken; UnknownTaskType PNone])
            init).
Proof.
  split.
  - refine (proj1 (decryption_failure_stays_in_the_worker refusing
                     sample_encrypted InvalidToken init _ _)); reflexivity.
  - refine (proj1 (proj2 (decryption_failure_stays_in_the_worker refusing
                            sample_encrypted InvalidToken init _ _)));
      reflexivity.
Defined.

(** C6 (as stated) fails: [receive_message] returns on the sentinel
    that [shutdown] has stopped. *)
Lemma receive_succeeds_after_shutdown : ~ receive_fails_once_stopped.
Proof.
  intros H.
  specialize (H (final (shutdown init)) sample_encrypted eq_refl).
  discriminate H.
Qed.

(** C6 (as amended): [receive_message] appends the task to the queue
    and returns, in every state of the runtime; [shutdown] returns with
    [running] false; a task received after that is appended all the
    same, and a worker that looks at [running] leaves it in the queue. *)
Theorem receive_always_enqueues :
  (forall s message,
     receive_message message s
     = Returned () (set_task_queue (task_queue s ++ [message]) s))
  /\ (forall s, returns (shutdown s) = true /\ running (final (shutdown s)) = false)
  /\ (forall env s message turns,
        let stopped := final (shutdown s) in
        let received := final (receive_message message stopped) in
        returns (receive_message message stopped) = true
        /\ task_queue received = task_queue s ++ [message]
        /\ run env turns received = Returned () received).
Proof.
  split; [reflexivity|]. split.
  - intros s. unfold shutdown. unfold_m. cbn.
    destruct (active_countermeasures s); cbn; split; reflexivity.
  - intros env s message turns. cbv zeta.
    assert (Hr : running (final (receive_message message (final (shutdown s)))) = false).
    { unfold shutdown. unfold_m. cbn. destruct (active_countermeasures s); reflexivity. }
    split; [reflexivity|]. split.
    + unfold shutdown. unfold_m. cbn. destruct (active_countermeasures s); reflexivity.
    + destruct turns as [|n]; [reflexivity|]. cbn [run].
      erewrite bind_returned by reflexivity. rewrite Hr. reflexivity.
Qed.

End SentinelProps.

(* ===================================================================== *)
(** * Properties of the registry *)
(* ===================================================================== *)

Module RegistryProps.
Import Py Registry.

Lemma _validate_agent_security_spec agent :
  _validate_agent_security agent = true
  <-> "crypto" ∈ attributes agent
      /\ "secure_comms" ∈ attributes agent
      /\ "threat_monitor" ∈ attributes agent.
Proof.
  unfold _validate_agent_security, hasattr. cbn [forallb].
  rewrite !andb_true_iff, !bool_decide_eq_true. tauto.
Qed.

(** C7: registering an instance that lacks one of the attributes
    [crypto], [secure_comms], [threat_monitor] raises [SecurityError] and
    leaves the registry alone; registering one that has all three
    returns, and [get_agent] then finds that instance under its
    identifier. *)
Theorem register_agent_checks_capabilities cls agent_type inst :
  (~ ("crypto" ∈ attributes inst
      /\ "secure_comms" ∈ attributes inst
      /\ "threat_monitor" ∈ attributes inst) ->
   register_agent agent_type inst cls
   = Raise (SecurityError "Agent failed security validation"))
  /\ ("crypto" ∈ attributes inst
      /\ "secure_comms" ∈ attributes inst
      /\ "threat_monitor" ∈ attributes inst ->
      exists cls',
        register_agent agent_type inst cls = Ok cls'
        /\ get_agent agent_type cls' = Ok inst).
Proof.
  unfold register_agent. split; intros H.
  - destruct (_validate_agent_security inst) eqn:E; [|reflexivity].
    exfalso. apply H, _validate_agent_security_spec, E.
  - apply _validate_agent_security_spec in H. rewrite H. cbn [negb].
    eexists. split; [reflexivity|].
    unfold get_agent. cbn [_agents]. rewrite lookup_insert_eq. reflexivity.
Qed.

Lemma register_agent_checks_capabilities_witness :
  register_agent "sentinel" incapable empty
  = Raise (SecurityError "Agent failed security validation")
  /\ exists cls',
       register_agent "sentinel" capable empty = Ok cls'
       /\ get_agent "sentinel" cls' = Ok capable.
Proof.
  split.
  - apply (proj1 (register_agent_checks_capabilities empty "sentinel" incapable)).
    intros (_ & _ & H). revert H. unfold incapable. cbn [attributes].
    rewrite !elem_of_union, !elem_of_singleton. intros [[H|H]|H]; discriminate H.
  - apply (proj2 (register_agent_checks_capabilities empty "sentinel" capable)).
    unfold capable. cbn [attributes].
    rewrite !elem_of_union, !elem_of_singleton. auto 10.
Defined.

End RegistryProps.

(* ===================================================================== *)
(** * Invariants of the threat escalation engine *)
(* ===================================================================== *)

Module EngineProps.
Import Py Sentinel SentinelProps Reach.

(** ** The monitoring formula in integers *)

(** Between levels 0 and 10 the binary64 computation of one interval
    returns [max(1, base*(20 - level) div 20)]. *)
Lemma scaled_closed_form level base :
  0 <= level <= 10 ->
  base ∈ [5; 10; 15; 30] ->
  (m ← multiplier level; scaled base m) = Ok (interval_at base level).
Proof.
  intros Hl Hb. pose proof (small_level level Hl) as Hc. clear Hl.
  repeat (apply elem_of_cons in Hb as [->|Hb]); [| | | |inversion Hb];
    destruct Hc as [->|[->|[->|[->|[->|[->|[->|[->|[->|[->| ->]]]]]]]]]];
    vm_compute; reflexivity.
Qed.

Lemma interval_at_bounds base level :
  0 < base -> 0 <= level <= 10 ->
  1 <= interval_at base level <= base
  /\ base / 2 <= interval_at base level.
Proof.
  intros Hb Hl. unfold interval_at.
  assert (H1 : base * (20 - level) / 20 <= base).
  { apply Z.div_le_upper_bound; nia. }
  assert (H2 : base / 2 <= base * (20 - level) / 20).
  { apply Z.div_le_lower_bound; [lia|].
    assert (2 * (base / 2) <= base) by (apply Z.mul_div_le; lia). nia. }
  lia.
Qed.

Lemma interval_at_antitone base level level' :
  0 < base -> level <= level' ->
  interval_at base level' <= interval_at base level.
Proof.
  intros Hb Hl. unfold interval_at.
  apply Z.max_le_compat_l, Z.div_le_mono; [lia|nia].
Qed.

(** X1: between levels 0 and 10, the interval that [_adjust_monitoring]
    computes for a category is [max(1, base*(20 - level) div 20)]; it is
    at least 1 and at least half the base (rounded down), at most the
    base, and never longer at a higher level. *)
Theorem intervals_shrink_with_the_level level level' category base :
  (category, base) ∈ base_intervals ->
  0 <= level <= level' -> level' <= 10 ->
  exists i i',
    (m ← multiplier level; scaled base m) = Ok i
    /\ (m ← multiplier level'; scaled base m) = Ok i'
    /\ i = interval_at base level
    /\ i' = interval_at base level'
    /\ 1 <= i' <= i /\ i <= base /\ base / 2 <= i'.
Proof.
  intros Hin Hl Hl'.
  assert (Hb : base ∈ [5; 10; 15; 30]).
  { unfold base_intervals in Hin.
    repeat (apply elem_of_cons in Hin as [[= _ ->]|Hin]);
      [| | | |inversion Hin]; repeat constructor. }
  assert (Hpos : 0 < base).
  { repeat (apply elem_of_cons in Hb as [->|Hb]); try lia. inversion Hb. }
  exists (interval_at base level), (interval_at base level').
  split; [apply scaled_closed_form; [lia|exact Hb]|].
  split; [apply scaled_closed_form; [lia|exact Hb]|].
  split; [reflexivity|]. split; [reflexivity|].
  pose proof (interval_at_bounds base level Hpos ltac:(lia)).
  pose proof (interval_at_bounds base level' Hpos ltac:(lia)).
  pose proof (interval_at_antitone base level level' Hpos ltac:(lia)).
  lia.
Qed.

Lemma intervals_shrink_with_the_level_witness :
  exists i i',
    (m ← multiplier 3; scaled 30 m) = Ok i
    /\ (m ← multiplier 7; scaled 30 m) = Ok i'
    /\ i = interval_at 30 3
    /\ i' = interval_at 30 7
    /\ 1 <= i' <= i /\ i <= 30 /\ 30 / 2 <= i'.
Proof.
  apply (intervals_shrink_with_the_level 3 7 "integrity" 30).
  - unfold base_intervals. set_solver.
  - lia.
  - lia.
Defined.

(** ** What every reachable state satisfies *)

Lemma reachable_init : reachable init.
Proof. apply (reach_init standalone []). constructor. Qed.

#[local] Instance capped_preorder : PreOrder capped.
Proof. split; [intros s H; exact H|intros a b c Hab Hbc H; auto]. Qed.

#[local] Instance keeps_level_preorder : PreOrder keeps_level.
Proof.
  split; [intros s; reflexivity|].
  intros a b c Hab Hbc. unfold keeps_level in *. congruence.
Qed.

#[local] Instance keeps_NoDup_preorder : PreOrder keeps_NoDup.
Proof. split; [intros s H; exact H|intros a b c Hab Hbc H; auto]. Qed.

#[local] Instance keeps_schedule_preorder : PreOrder keeps_schedule.
Proof. split; [intros s H; exact H|intros a b c Hab Hbc H; auto]. Qed.

(** One step into a method body. *)
Ltac body_step :=
  lazymatch goal with
  | |- preserves _ (mret _) => apply preserves_ret; apply _
  | |- preserves _ (raise _) => apply preserves_raise; apply _
  | |- preserves _ (eval _) => apply preserves_eval; apply _
  | |- preserves _ read => apply preserves_read; apply _
  | |- preserves _ (mbind _ _) => apply preserves_bind; [apply _| |intros ?]
  | |- preserves _ (for_each _ _) => apply preserves_for_each; [apply _|intros ?]
  | |- preserves _ (try_except_on _ _ _) =>
      apply preserves_try_except_on; [apply _| |intros ?]
  | |- preserves _ (if ?b then _ else _) => destruct b
  | |- preserves _ (match ?x with [] => _ | _ :: _ => _ end) => destruct x
  | |- preserves _ (interval_of _) =>
      let s := fresh "s" in
      intros s; unfold interval_of; destruct (_ !! _);
        first [reflexivity | intros ?H; exact H]
  end.

(** A call that leaves the fields a relation looks at. *)
Ltac by_conversion :=
  let s := fresh "s" in
  intros s; first [reflexivity | let H := fresh in intros H; exact H].

Ltac frame special :=
  repeat first [ solve [special] | body_step | solve [by_conversion] ].

Ltac unfold_methods :=
  unfold _handle_suspicious_activity, _handle_threat_alert, _activate_lockdown,
    lockdown_step, _activate_countermeasures, _send_results, _enhance_monitoring,
    _isolate_network, run_checked, _suspend_non_critical_processes,
    _restrict_process_creation, _freeze_content_assets, _enable_enhanced_logging,
    _backup_critical_data, shutdown.

Ltac unfold_monitoring :=
  unfold _update_threat_level, _adjust_monitoring, _init_monitoring.

(** *** The level stays at or below 10 *)

Lemma capped__update_threat_level d : preserves capped (_update_threat_level d).
Proof. intros s _. rewrite threat_level_after_update. lia. Qed.

Lemma keeps_level__adjust_monitoring : preserves keeps_level _adjust_monitoring.
Proof. intros s. apply _adjust_monitoring_frame. Qed.

Lemma keeps_level_capped {A} (m : M A) :
  preserves keeps_level m -> preserves capped m.
Proof. intros H s Hs. rewrite (H s). exact Hs. Qed.

Lemma capped_activate_loop measures activated :
  preserves capped (activate_loop measures activated).
Proof.
  revert activated. induction measures as [|m ms IH]; intros activated;
    cbn [activate_loop]; unfold_methods.
  - apply preserves_ret, _.
  - frame ltac:(first [apply IH
                      |apply keeps_level_capped, keeps_level__adjust_monitoring]).
Qed.

Lemma capped_perform op : preserves capped (perform op).
Proof.
  destruct op; cbn [perform]; unfold_methods;
    frame ltac:(first [apply capped__update_threat_level
                      |apply capped_activate_loop
                      |apply keeps_level_capped, keeps_level__adjust_monitoring]).
Qed.

Lemma capped_shutdown : preserves capped shutdown.
Proof. unfold_methods. frame fail. Qed.

(** X2: in every state that a sentinel reaches through updates,
    handlers, activations, received messages and shutdowns, on whatever
    host and whatever the other agents schedule meanwhile, the threat
    level is at most 10, whether the calls returned or raised. *)
Theorem threat_level_never_exceeds_10 s :
  reachable s -> threat_level s <= 10.
Proof.
  induction 1 as [h scheduled _|op s _ IH|s _ IH|h s _ IH|j s _ IH _].
  - vm_compute. discriminate.
  - apply capped_perform, IH.
  - apply capped_shutdown, IH.
  - exact IH.
  - exact IH.
Qed.

Lemma threat_level_never_exceeds_10_witness :
  threat_level (final (perform (Update 7) locked_down)) <= 10.
Proof.
  apply threat_level_never_exceeds_10.
  apply reach_perform.
  apply (reach_perform
           (SuspiciousActivity (py "integrity") (py "files modified") 12) init).
  apply reachable_init.
Defined.

(** *** The active measures hold no duplicate *)

(** An append behind the membership test. *)
Lemma keeps_NoDup_guarded_append {A} measure (present absent : M A) :
  preserves keeps_NoDup present ->
  preserves keeps_NoDup absent ->
  preserves keeps_NoDup
    (s ← read;
     if bool_decide (measure ∈ active_countermeasures s) then present
     else append_countermeasure measure;; absent).
Proof.
  intros Hp Ha s Hs. unfold mbind, M_bind, read. cbv beta iota.
  case_bool_decide as Hm; [apply Hp, Hs|].
  unfold append_countermeasure. cbv beta iota.
  apply Ha. cbn. apply NoDup_app. split; [exact Hs|]. split.
  - intros x Hx Hx'. apply list_elem_of_singleton in Hx'. congruence.
  - apply NoDup_singleton.
Qed.

Lemma keeps_active_NoDup {A} (m : M A) :
  preserves keeps_active m -> preserves keeps_NoDup m.
Proof. intros H s Hs. rewrite (H s). exact Hs. Qed.

Lemma keeps_NoDup_activate_loop measures activated :
  preserves keeps_NoDup (activate_loop measures activated).
Proof.
  destruct keeps_actions as (?&?&?&?&_).
  revert activated. induction measures as [|m ms IH]; intros activated;
    cbn [activate_loop].
  - apply preserves_ret, _.
  - apply keeps_NoDup_guarded_append; [apply IH|].
    frame ltac:(first [apply IH|apply keeps_active_NoDup; assumption]).
Qed.

Lemma keeps_NoDup_lockdown_step measure :
  preserves keeps_NoDup (lockdown_step measure).
Proof.
  unfold lockdown_step. apply keeps_NoDup_guarded_append; unfold_methods; frame fail.
Qed.

Lemma keeps_NoDup_perform op : preserves keeps_NoDup (perform op).
Proof.
  destruct op; cbn [perform];
    unfold _handle_suspicious_activity, _handle_threat_alert, _activate_lockdown,
      _activate_countermeasures, _send_results;
    frame ltac:(first [apply keeps_NoDup_lockdown_step
                      |apply keeps_NoDup_activate_loop
                      |apply keeps_active_NoDup, keeps__update_threat_level]).
Qed.

Lemma keeps_NoDup_shutdown : preserves keeps_NoDup shutdown.
Proof.
  unfold_methods.
  frame ltac:(intros ? _; apply NoDup_nil_2).
Qed.

(** X3: in every reachable state no countermeasure is listed twice in
    [active_countermeasures]: each append is behind a membership test. *)
Theorem active_countermeasures_have_no_duplicate s :
  reachable s -> NoDup (active_countermeasures s).
Proof.
  induction 1 as [h scheduled _|op s _ IH|s _ IH|h s _ IH|j s _ IH _].
  - apply NoDup_nil_2.
  - apply keeps_NoDup_perform, IH.
  - apply keeps_NoDup_shutdown, IH.
  - exact IH.
  - exact IH.
Qed.

Lemma active_countermeasures_have_no_duplicate_witness :
  NoDup (active_countermeasures
           (final (perform (Countermeasures ["isolate_network"; "isolate_network"])
                     locked_down))).
Proof.
  apply active_countermeasures_have_no_duplicate.
  apply reach_perform.
  apply (reach_perform
           (SuspiciousActivity (py "integrity") (py "files modified") 12) init).
  apply reachable_init.
Defined.

(** *** The lockdown tag is never listed *)

#[local] Instance keeps_unlisted_preorder : PreOrder keeps_unlisted.
Proof. split; [intros s H; exact H|intros a b c Hab Hbc H; auto]. Qed.










(** *** The four jobs are always scheduled *)

Lemma scaled_at_least_1 v m i : scaled v m = Ok i -> 1 <= i.
Proof.
  unfold scaled. destruct (mul_int_float v m); cbn; [|discriminate].
  destruct (int_of_float _); cbn; [|discriminate].
  intros [= <-]. lia.
Qed.

Lemma scaled_items_shape m items :
  scaled_items base_intervals m = Ok items ->
  exists a b c d,
    items = [("network", a); ("process", b); ("performance", c); ("integrity", d)]
    /\ 1 <= a /\ 1 <= b /\ 1 <= c /\ 1 <= d.
Proof.
  unfold base_intervals. cbn [scaled_items].
  destruct (scaled 5 m) as [a|] eqn:Ea; cbn; [|discriminate].
  destruct (scaled 10 m) as [b|] eqn:Eb; cbn; [|discriminate].
  destruct (scaled 15 m) as [c|] eqn:Ec; cbn; [|discriminate].
  destruct (scaled 30 m) as [d|] eqn:Ed; cbn; [|discriminate].
  intros [= <-]. exists a, b, c, d.
  eauto 10 using scaled_at_least_1.
Qed.

Lemma well_scheduled_table s a b c d :
  1 <= a -> 1 <= b -> 1 <= c -> 1 <= d ->
  well_scheduled
    (set_jobs
       [ {| interval := a; job_func := _monitor_network_activity |};
         {| interval := b; job_func := _monitor_processes |};
         {| interval := c; job_func := _monitor_system_performance |};
         {| interval := d; job_func := _check_system_integrity |} ]
       (set_monitoring_intervals
          (list_to_map [("network", a); ("process", b);
                        ("performance", c); ("integrity", d)]) s)).
Proof.
  intros Ha Hb Hc Hd. unfold well_scheduled. cbn [monitoring_intervals jobs set_jobs
    set_monitoring_intervals list_to_map foldr fst snd].
  split; [|split; [|split]].
  - rewrite !dom_insert_L, dom_empty_L. unfold categories. set_solver.
  - intros k v Hk.
    repeat (apply lookup_insert_Some in Hk as [[_ <-]|[_ Hk]]; [assumption|]).
    rewrite lookup_empty in Hk. discriminate Hk.
  - reflexivity.
  - repeat constructor; intros _; assumption.
Qed.

Lemma filter_own_foreign scheduled :
  Forall (fun j => own j = false) scheduled -> List.filter own scheduled = [].
Proof.
  induction 1 as [|j scheduled Hj _ IH]; [reflexivity|].
  cbn [List.filter]. rewrite Hj. exact IH.
Qed.

Lemma well_scheduled_foreign j s :
  own j = false -> well_scheduled s -> well_scheduled (set_jobs (jobs s ++ [j]) s).
Proof.
  intros Hj (Hd & Hv & Hf & Hi).
  split; [exact Hd|]. split; [exact Hv|].
  cbn [jobs set_jobs]. split.
  - rewrite List.filter_app. cbn [List.filter]. rewrite Hj, app_nil_r. exact Hf.
  - apply Forall_app. split; [exact Hi|].
    constructor; [|constructor]. rewrite Hj. discriminate.
Qed.

Lemma keeps_schedule__adjust_monitoring : preserves keeps_schedule _adjust_monitoring.
Proof.
  intros s Hs. unfold _adjust_monitoring. unfold_m.
  destruct (multiplier (threat_level s)) as [m|e]; cbv beta iota; [|exact Hs].
  destruct (scaled_items base_intervals m) as [items|e] eqn:E; cbv beta iota;
    [|exact Hs].
  destruct (scaled_items_shape m items E) as (a & b & c & d & -> & Ha & Hb & Hc & Hd).
  match goal with
  | |- well_scheduled (final ?o) =>
      replace o with
        (Returned ()
           (set_jobs
              [ {| interval := a; job_func := _monitor_network_activity |};
                {| interval := b; job_func := _monitor_processes |};
                {| interval := c; job_func := _monitor_system_performance |};
                {| interval := d; job_func := _check_system_integrity |} ]
              (set_monitoring_intervals
                 (list_to_map [("network", a); ("process", b);
                               ("performance", c); ("integrity", d)]) s)))
  end.
  - apply well_scheduled_table; assumption.
  - destruct s. vm_compute. reflexivity.
Qed.

Lemma keeps_schedule_enhanced :
  preserves keeps_schedule
    (assign (set_monitoring_intervals
               {[ "network" := 1; "process" := 2; "performance" := 5;
                  "integrity" := 10 ]})).
Proof.
  intros s (_ & _ & Hj & Hi). unfold assign. cbn [final].
  split; [|split; [|split]]; cbn [monitoring_intervals jobs set_monitoring_intervals].
  - vm_compute. reflexivity.
  - intros k v Hk.
    repeat (apply lookup_insert_Some in Hk as [[_ <-]|[_ Hk]]; [lia|]).
    apply lookup_singleton_Some in Hk as [_ <-]. lia.
  - exact Hj.
  - exact Hi.
Qed.

Lemma keeps_schedule__update_threat_level d :
  preserves keeps_schedule (_update_threat_level d).
Proof.
  unfold _update_threat_level.
  frame ltac:(apply keeps_schedule__adjust_monitoring).
Qed.

Lemma keeps_schedule_activate_loop measures activated :
  preserves keeps_schedule (activate_loop measures activated).
Proof.
  revert activated. induction measures as [|m ms IH]; intros activated;
    cbn [activate_loop]; unfold_methods.
  - apply preserves_ret, _.
  - frame ltac:(first [apply IH
                      |apply keeps_schedule__adjust_monitoring
                      |apply keeps_schedule_enhanced]).
Qed.

Lemma keeps_schedule_perform op : preserves keeps_schedule (perform op).
Proof.
  destruct op; cbn [perform]; unfold_methods;
    frame ltac:(first [apply keeps_schedule__update_threat_level
                      |apply keeps_schedule_activate_loop]).
Qed.

Lemma keeps_schedule_shutdown : preserves keeps_schedule shutdown.
Proof. unfold_methods. frame fail. Qed.

Lemma well_scheduled_init_on h scheduled :
  Forall (fun j => own j = false) scheduled ->
  well_scheduled (init_on h scheduled).
Proof.
  intros Hf.
  replace (init_on h scheduled) with
    (set_log [Initialized 0]
       (set_jobs
          ((((scheduled
              ++ [ {| interval := 5; job_func := _monitor_network_activity |} ])
             ++ [ {| interval := 10; job_func := _monitor_processes |} ])
            ++ [ {| interval := 15; job_func := _monitor_system_performance |} ])
           ++ [ {| interval := 30; job_func := _check_system_integrity |} ])
          (fresh_on h scheduled)))
    by (vm_compute; reflexivity).
  unfold well_scheduled.
  cbn [monitoring_intervals jobs set_log set_jobs fresh_on].
  split; [vm_compute; reflexivity|]. split; [|split].
  - intros k v Hk.
    repeat (apply lookup_insert_Some in Hk as [[_ <-]|[_ Hk]]; [lia|]).
    apply lookup_singleton_Some in Hk as [_ <-]. lia.
  - rewrite !List.filter_app, (filter_own_foreign scheduled Hf). reflexivity.
  - rewrite !Forall_app. repeat split;
      [|constructor; [intros _; cbn [interval]; lia|constructor] ..].
    eapply Forall_impl; [exact Hf|]. intros j Hj. rewrite Hj. discriminate.
Qed.

Lemma well_scheduled_reachable s : reachable s -> well_scheduled s.
Proof.
  induction 1 as [h scheduled Hf|op s _ IH|s _ IH|h s _ IH|j s _ IH Hj].
  - exact (well_scheduled_init_on h scheduled Hf).
  - apply keeps_schedule_perform, IH.
  - apply keeps_schedule_shutdown, IH.
  - exact IH.
  - exact (well_scheduled_foreign j s Hj IH).
Qed.

Lemma reachable_on_scale_reachable s : reachable_on_scale s -> reachable s.
Proof.
  induction 1 as [h scheduled Hf|op s _ IH _|s _ IH|h s _ IH|j s _ IH Hj].
  - exact (reach_init h scheduled Hf).
  - exact (reach_perform op s IH).
  - exact (reach_shutdown s IH).
  - exact (reach_host h s IH).
  - exact (reach_scheduled j s IH Hj).
Qed.

(** X4: the scheduler is shared with the other agents, which may put
    their jobs on it before the sentinel is built and at any time after.
    In every state reached without a call that left a negative level,
    the monitoring intervals cover exactly the four categories, each at
    one second or more, and the jobs of the sentinel on the scheduler
    are exactly the four monitoring jobs, in order, each at one second
    or more; this also holds after a call that raised.  The jobs of the
    other agents do not survive a change of the level to a level that
    is not negative: the scheduler then holds the four monitoring jobs
    and nothing else. *)
Theorem monitoring_stays_scheduled :
  (forall s, reachable_on_scale s -> well_scheduled s)
  /\ (forall s d,
        Z.min 10 (threat_level s + d) <> threat_level s ->
        0 <= threat_level s + d ->
        Forall (fun j => own j = true) (jobs (final (_update_threat_level d s)))
        /\ length (jobs (final (_update_threat_level d s))) = 4%nat).
Proof.
  split.
  - intros s H. apply well_scheduled_reachable, reachable_on_scale_reachable, H.
  - intros s d Hne H0.
    rewrite (_update_threat_level_changed s d Hne H0).
    cbn [final jobs adjusted set_jobs]. unfold monitoring_jobs.
    split; [repeat constructor|reflexivity].
Qed.

Lemma monitoring_stays_scheduled_witness :
  well_scheduled
    (final (shutdown
       (set_jobs
          (jobs (final (perform (Update 3)
                   (init_on standalone
                      [ {| interval := 30;
                           job_func := job_of_another_agent "_periodic_analysis" |} ])))
           ++ [ {| interval := 1;
                   job_func := job_of_another_agent "_post_content" |} ])
          (final (perform (Update 3)
             (init_on standalone
                [ {| interval := 30;
                     job_func := job_of_another_agent "_periodic_analysis" |} ]))))))
  /\ Forall (fun j => own j = true)
       (jobs (final (_update_threat_level 3
                       (init_on standalone
                          [ {| interval := 30;
                               job_func :=
                                 job_of_another_agent "_periodic_analysis" |} ])))).
Proof.
  split.
  - apply (proj1 monitoring_stays_scheduled).
    apply on_scale_shutdown, on_scale_scheduled; [|reflexivity].
    apply on_scale_perform; [|vm_compute; discriminate].
    apply on_scale_init. repeat constructor.
  - apply (proj2 monitoring_stays_scheduled
             (init_on standalone
                [ {| interval := 30;
                     job_func := job_of_another_agent "_periodic_analysis" |} ])
             3).
    + vm_compute. discriminate.
    + vm_compute. discriminate.
Defined.

(** ** Enhanced monitoring *)

(** X5: between levels 0 and 10, [_enhance_monitoring] leaves the
    intervals and the jobs that [_adjust_monitoring] computes from the
    level: the intervals 1, 2, 5 and 10 that it assigns first are
    overwritten at once, and at level 0 the cadence stays at the base
    values 5, 10, 15 and 30. *)
Theorem enhanced_intervals_are_overwritten s :
  0 <= threat_level s <= 10 ->
  _enhance_monitoring s
  = Returned () (set_log (log s ++ [EnhancedMonitoring]) (adjusted s))
  /\ monitoring_intervals (final (_enhance_monitoring s))
     = monitoring_intervals (final (_adjust_monitoring s))
  /\ jobs (final (_enhance_monitoring s)) = jobs (final (_adjust_monitoring s))
  /\ (threat_level s = 0 ->
      monitoring_intervals (final (_enhance_monitoring s))
      = {[ "network" := 5; "process" := 10; "performance" := 15;
           "integrity" := 30 ]}).
Proof.
  intros Hl.
  assert (E : _enhance_monitoring s
              = Returned () (set_log (log s ++ [EnhancedMonitoring]) (adjusted s))).
  { unfold _enhance_monitoring.
    erewrite bind_returned by reflexivity.
    erewrite bind_returned by (apply _adjust_monitoring_small; exact Hl).
    reflexivity. }
  split; [exact E|]. rewrite E, (_adjust_monitoring_small s Hl). cbn [final].
  split; [reflexivity|]. split; [reflexivity|].
  intros H0. cbn [monitoring_intervals set_log adjusted set_jobs
    set_monitoring_intervals]. rewrite H0. vm_compute. reflexivity.
Qed.

Lemma enhanced_intervals_are_overwritten_witness :
  monitoring_intervals (final (_enhance_monitoring init))
  = {[ "network" := 5; "process" := 10; "performance" := 15; "integrity" := 30 ]}.
Proof.
  apply (enhanced_intervals_are_overwritten init).
  - vm_compute. split; discriminate.
  - reflexivity.
Defined.

(** ** Threat alerts that are not well formed *)

(** X6: a threat alert without a ['threat'] entry, or whose threat has no
    ['description'], raises [KeyError] and changes nothing; a threat
    without ['severity'] counts as severity 1; a severity that is a str,
    a list, a dict or [None] raises [TypeError] after the alert was
    logged, and leaves the level and the countermeasures as they were. *)
Theorem malformed_threat_alerts s :
  _handle_threat_alert (PDict [(py "type", PStr (py "threat_alert"))]) s
  = Raised (KeyError "threat") s
  /\ (forall severity,
        _handle_threat_alert (alert [(py "severity", severity)]) s
        = Raised (KeyError "description") s)
  /\ (forall description,
        _handle_threat_alert (alert [(py "description", description)]) s
        = _handle_threat_alert
            (alert [(py "description", description); (py "severity", PInt 1)]) s)
  /\ (forall description severity,
        as_int severity = Raise TypeError ->
        _handle_threat_alert
          (alert [(py "description", description); (py "severity", severity)]) s
        = Raised TypeError (set_log (log s ++ [ThreatAlert description]) s)).
Proof.
  split; [reflexivity|]. split; [reflexivity|]. split; [reflexivity|].
  intros description severity H. unfold _handle_threat_alert, alert.
  rewrite (bind_returned _ _ s
             (PDict [(py "description", description); (py "severity", severity)]) s)
    by reflexivity.
  rewrite (bind_returned _ _ s description s) by reflexivity.
  rewrite (bind_returned _ _ s ()
             (set_log (log s ++ [ThreatAlert description]) s)) by reflexivity.
  rewrite (bind_returned _ _ _ severity
             (set_log (log s ++ [ThreatAlert description]) s)) by reflexivity.
  unfold mbind at 1. unfold M_bind. rewrite H. reflexivity.
Qed.

Lemma malformed_threat_alerts_witness :
  _handle_threat_alert
    (alert [(py "description", PStr (py "probe")); (py "severity", PStr (py "high"))])
    init
  = Raised TypeError (set_log (log init ++ [ThreatAlert (PStr (py "probe"))]) init).
Proof.
  apply (proj2 (proj2 (proj2 (malformed_threat_alerts init)))).
  reflexivity.
Defined.

End EngineProps.

(* ===================================================================== *)
(** * The worker: exceptions, scans and encrypted envelopes *)
(* ===================================================================== *)

Module WorkerProps.
Import Py PyFacts Sentinel SentinelProps Envelope.

Lemma run_raises env task rest e s s' turns :
  running s = true ->
  task_queue s = task :: rest ->
  _process_task env task (set_task_queue rest s) = Raised e s' ->
  run env (S turns) s = Raised e s'.
Proof.
  intros Hr Hq Hp. cbn [run].
  rewrite (bind_returned read _ s s s) by reflexivity. rewrite Hr.
  unfold run_once, mbind, M_bind, read, assign. rewrite Hq, Hp. reflexivity.
Qed.

(** X7: an exception that leaves [_process_task] leaves [run] as well:
    the worker's loop ends there, and the tasks queued behind stay
    unprocessed, however many turns were left.  A [threat_alert] task
    without a ['threat'] entry does this with a [KeyError]. *)
Theorem raising_task_stops_the_worker env rest s turns :
  running s = true ->
  (forall task e s',
     task_queue s = task :: rest ->
     _process_task env task (set_task_queue rest s) = Raised e s' ->
     run env (S turns) s = Raised e s')
  /\ (task_queue s = [(py "type", PStr (py "threat_alert"))] :: rest ->
      run env (S turns) s = Raised (KeyError "threat") (set_task_queue rest s)).
Proof.
  intros Hr. split.
  - intros task e s' Hq Hp. exact (run_raises env task rest e s s' turns Hr Hq Hp).
  - intros Hq. apply (run_raises env _ rest _ s _ turns Hr Hq). reflexivity.
Qed.

Lemma raising_task_stops_the_worker_witness :
  run refusing 5
    (final (receive_message sample_encrypted
              (final (receive_message [(py "type", PStr (py "threat_alert"))] init))))
  = Raised (KeyError "threat")
      (set_task_queue [sample_encrypted]
         (final (receive_message sample_encrypted
                   (final (receive_message [(py "type", PStr (py "threat_alert"))]
                             init))))).
Proof.
  apply (proj2 (raising_task_stops_the_worker refusing [sample_encrypted]
                  (final (receive_message sample_encrypted
                            (final (receive_message
                                      [(py "type", PStr (py "threat_alert"))] init))))
                  4 eq_refl)).
  reflexivity.
Defined.

Section Scan.
Variable insecure_files : string -> result (list pystr).
Variable scan_network scan_processes : result pyval.
Variable initiating : log_event.
Variable score_and_report : pyval -> pyval -> pyval -> M unit.

Lemma scan_raises s :
  exists e,
    Monitors._full_system_scan insecure_files scan_network scan_processes
      initiating score_and_report s
    = Raised e (set_log (log s ++ [initiating]) s)
    /\ (is_ok scan_network = true -> is_ok scan_processes = true ->
        e = NameError "glob").
Proof.
  unfold Monitors._full_system_scan.
  rewrite (bind_returned (logger initiating) _ s ()
             (set_log (log s ++ [initiating]) s)) by reflexivity.
  unfold mbind, M_bind, eval.
  destruct scan_network as [n|e]; [|exists e; split; [reflexivity|discriminate]].
  destruct scan_processes as [p|e]; [|exists e; split; [reflexivity|discriminate]].
  exists (NameError "glob"). split; reflexivity.
Qed.

(** X8: [_full_system_scan] never completes: after its first log line it
    raises, with the exception of a probe or, when the network and
    process scans return, with [NameError] on the name [glob] that
    [_scan_filesystem] uses and the module does not import.  The threat
    level is never updated and no report is sent; a [security_scan] task
    therefore ends the worker's loop. *)
Theorem full_system_scan_never_completes s :
  (exists e,
     Monitors._full_system_scan insecure_files scan_network scan_processes
       initiating score_and_report s
     = Raised e (set_log (log s ++ [initiating]) s)
     /\ (is_ok scan_network = true -> is_ok scan_processes = true ->
         e = NameError "glob"))
  /\ (forall env task rest turns,
        _full_system_scan env
        = Monitors._full_system_scan insecure_files scan_network scan_processes
            initiating score_and_report ->
        contains "encrypted" task = false ->
        assoc (py "type") task = Some (PStr (py "security_scan")) ->
        task_queue s = task :: rest -> running s = true ->
        exists e,
          run env (S turns) s
          = Raised e (set_log (log s ++ [initiating]) (set_task_queue rest s))).
Proof.
  split; [apply scan_raises|].
  intros env task rest turns Henv Hplain Htype Hq Hr.
  destruct (scan_raises (set_task_queue rest s)) as (e & He & _).
  exists e.
  apply (run_raises env task rest e s _ turns Hr Hq).
  unfold _process_task. rewrite Hplain.
  rewrite (bind_returned _ _ _ (PDict task) (set_task_queue rest s)) by reflexivity.
  rewrite (bind_returned _ _ _ (PStr (py "security_scan")) (set_task_queue rest s))
    by (unfold get; rewrite Htype; reflexivity).
  replace (is_type (PStr (py "security_scan")) "security_scan") with true
    by (vm_compute; reflexivity).
  rewrite Henv. exact He.
Qed.
End Scan.

Lemma full_system_scan_never_completes_witness :
  exists e,
    run {| crypto_decrypt := fun _ => Raise InvalidToken;
           json_loads := fun _ => Raise JSONDecodeError;
           _full_system_scan :=
             Monitors._full_system_scan (fun _ => Ok []) (Ok PNone) (Ok PNone)
               ActivatingLockdown (fun _ _ _ => _update_threat_level 3);
           _update_whitelist := fun _ => mret ();
           schedule_run_pending := mret () |}
      2 (final (receive_message [(py "type", PStr (py "security_scan"))] init))
    = Raised e
        (set_log (log init ++ [ActivatingLockdown]) (set_task_queue [] init)).
Proof.
  refine (proj2 (full_system_scan_never_completes (fun _ => Ok []) (Ok PNone)
                   (Ok PNone) ActivatingLockdown
                   (fun _ _ _ => _update_threat_level 3)
                   (final (receive_message
                             [(py "type", PStr (py "security_scan"))] init)))
            _ [(py "type", PStr (py "security_scan"))] [] 1%nat _ _ _ _ _);
    reflexivity.
Defined.

(** ** Encrypted envelopes *)

Lemma decrypt_encrypt_scalar crypto entropy x :
  Crypto.fernet_contract (Crypto.cipher crypto) ->
  Forall scalar x ->
  exists token,
    Crypto.encrypt crypto entropy x = Ok token
    /\ Crypto.decrypt crypto token = Ok x.
Proof.
  intros Hc Hx. destruct (decode_encode x Hx) as (b & Eb & Db).
  exists (Crypto.fernet_encrypt (Crypto.cipher crypto) entropy b).
  split; [exact (CryptoProps.encrypt_token crypto Hc entropy x b Eb)|].
  destruct Hc as [Hrt Hascii]. unfold Crypto.decrypt.
  rewrite (encode_ascii _ (Hascii entropy b (encode_octets x b Eb))).
  cbn. rewrite (Hrt entropy b (encode_octets x b Eb)). exact Db.
Qed.

(** X9: an envelope whose payload is the encryption of a serialised task
    is processed by the receiving worker exactly as the task itself:
    [_decrypt_task] gives the task back, with nothing logged, and the
    same handler runs.  This needs the Fernet contract, a serialisation
    that UTF-8 can encode, and a [json.loads] that reads it back. *)
Theorem encrypted_envelope_is_processed_like_its_task
    env crypto entropy dumped task recipient s :
  Crypto.fernet_contract (Crypto.cipher crypto) ->
  crypto_decrypt env = decrypt_value crypto ->
  Forall scalar dumped ->
  json_loads env dumped = Ok (PDict task) ->
  contains "encrypted" task = false ->
  exists token,
    Crypto.encrypt crypto entropy dumped = Ok token
    /\ _decrypt_task env (envelope recipient token) s = Returned (PDict task) s
    /\ _process_task env (envelope recipient token) s = _process_task env task s.
Proof.
  intros Hc Henv Hx Hjson Hplain.
  destruct (decrypt_encrypt_scalar crypto entropy dumped Hc Hx) as (token & Et & Dt).
  exists token. split; [exact Et|].
  assert (Hd : _decrypt_task env (envelope recipient token) s
               = Returned (PDict task) s).
  { unfold _decrypt_task, try_except, envelope.
    rewrite (bind_returned _ _ s (PStr token) s) by reflexivity.
    rewrite (bind_returned _ _ s dumped s)
      by (rewrite Henv; unfold decrypt_value; rewrite Dt; reflexivity).
    rewrite Hjson. reflexivity. }
  split; [exact Hd|].
  unfold _process_task. rewrite Hplain.
  replace (contains "encrypted" (envelope recipient token)) with true
    by (vm_compute; reflexivity).
  rewrite (bind_returned _ _ s (PDict task) s Hd).
  rewrite (bind_returned (mret (PDict task)) _ s (PDict task) s) by reflexivity.
  reflexivity.
Qed.

Lemma encrypted_envelope_is_processed_like_its_task_witness :
  exists token,
    Crypto.encrypt Crypto.armored [] (py "lockdown") = Ok token
    /\ _decrypt_task
         {| crypto_decrypt := decrypt_value Crypto.armored;
            json_loads := fun _ => Ok (PDict [(py "type", PStr (py "lockdown"))]);
            _full_system_scan := mret ();
            _update_whitelist := fun _ => mret ();
            schedule_run_pending := mret () |}
         (envelope (py "Sentinel") token) init
       = Returned (PDict [(py "type", PStr (py "lockdown"))]) init
    /\ _process_task
         {| crypto_decrypt := decrypt_value Crypto.armored;
            json_loads := fun _ => Ok (PDict [(py "type", PStr (py "lockdown"))]);
            _full_system_scan := mret ();
            _update_whitelist := fun _ => mret ();
            schedule_run_pending := mret () |}
         (envelope (py "Sentinel") token) init
       = _process_task
           {| crypto_decrypt := decrypt_value Crypto.armored;
              json_loads := fun _ => Ok (PDict [(py "type", PStr (py "lockdown"))]);
              _full_system_scan := mret ();
              _update_whitelist := fun _ => mret ();
              schedule_run_pending := mret () |}
           [(py "type", PStr (py "lockdown"))] init.
Proof.
  apply encrypted_envelope_is_processed_like_its_task.
  - exact CryptoProps.armor_cipher_contract.
  - reflexivity.
  - repeat constructor; vm_compute; intuition congruence.
  - reflexivity.
  - reflexivity.
Defined.

End WorkerProps.

(* ===================================================================== *)
(** * Monitors, scans and the whitelist *)
(* ===================================================================== *)

Module MonitorsProps.
Import Py Sentinel SentinelProps Monitors.

(** ** Authorised connections *)

Lemma bool_decide_sym (a b : pystr) :
  bool_decide (a = b) = bool_decide (b = a).
Proof. apply bool_decide_ext. split; intros H; symmetry; exact H. Qed.

Lemma some_entry_allows_local entries conn :
  (remote conn = None \/ remote conn = Some []) ->
  some_entry_allows entries conn = Ok false.
Proof.
  intros H. induction entries as [|a entries IH]; cbn [some_entry_allows];
    [reflexivity|].
  destruct H as [-> | ->]; exact IH.
Qed.

Lemma some_entry_allows_spec entries conn c r :
  Forall (fun allowed => exists d, allowed = PDict d) entries ->
  remote conn = Some (c :: r) ->
  exists b,
    some_entry_allows entries conn = Ok b
    /\ (b = true <->
        exists allowed ip,
          allowed ∈ entries /\ get allowed "ip" PNone = Ok ip
          /\ eq_str ip (before_colon (c :: r)) = true).
Proof.
  intros Hd Hr. induction Hd as [|allowed entries [d ->] _ (b & Eb & Hb)].
  - exists false. split; [reflexivity|]. split; [discriminate|].
    intros (a & ip & Ha & _). inversion Ha.
  - cbn [some_entry_allows]. rewrite Hr. cbn [get mbind result_bind].
    destruct (eq_str (default PNone (assoc (py "ip") d)) (before_colon (c :: r)))
      eqn:E.
    + exists true. split; [reflexivity|]. split; [|reflexivity]. intros _.
      exists (PDict d), (default PNone (assoc (py "ip") d)).
      split; [left|]. split; [reflexivity|exact E].
    + exists b. split; [exact Eb|]. rewrite Hb. split.
      * intros (a & ip & Ha & Hg & He). exists a, ip.
        split; [right; exact Ha|]. split; assumption.
      * intros (a & ip & Ha & Hg & He).
        apply elem_of_cons in Ha as [->|Ha].
        -- exfalso.
           assert (Hip : default PNone (assoc (py "ip") d) = ip)
             by exact (f_equal (fun x => match x with Ok v => v | Raise _ => PNone end) Hg).
           rewrite <- Hip, E in He. discriminate He.
        -- exists a, ip. split; [exact Ha|]. split; assumption.
Qed.

(** X10: with a whitelist whose connection entries are dicts,
    [_is_connection_authorized] answers [True] exactly for a connection
    without a remote end and for one whose remote host, the text before
    the first colon of a non-empty [remote], equals the ['ip'] of some
    entry; an empty [remote] is never authorised; the port of an entry is
    never consulted.  With the built-in whitelist the authorised hosts
    are 127.0.0.1 and api.openai.com. *)
Theorem connection_authorization wl entries conn :
  wl !! py "connections" = Some entries ->
  Forall (fun allowed => exists d, allowed = PDict d) entries ->
  (exists b,
     _is_connection_authorized wl conn = Ok b
     /\ (b = true <->
         remote conn = None
         \/ exists c r allowed ip,
              remote conn = Some (c :: r) /\ allowed ∈ entries
              /\ get allowed "ip" PNone = Ok ip
              /\ eq_str ip (before_colon (c :: r)) = true))
  /\ (remote conn = Some [] -> _is_connection_authorized wl conn = Ok false)
  /\ _is_connection_authorized _load_whitelist conn
     = Ok match remote conn with
          | None => true
          | Some [] => false
          | Some (c :: r) =>
              bool_decide (before_colon (c :: r) = py "127.0.0.1")
              || bool_decide (before_colon (c :: r) = py "api.openai.com")
          end.
Proof.
  intros Hw Hd.
  assert (Hc : category wl "connections" = Ok entries)
    by (unfold category; rewrite Hw; reflexivity).
  split; [|split].
  - unfold _is_connection_authorized. rewrite Hc. cbn [mbind result_bind].
    destruct (remote conn) as [[|c r]|] eqn:Hr.
    + rewrite some_entry_allows_local by (right; exact Hr). cbn; rewrite ?Hr.
      exists false. split; [reflexivity|]. split; [discriminate|].
      intros [H|(c & r & _ & _ & H & _)]; discriminate H.
    + destruct (some_entry_allows_spec entries conn c r Hd Hr) as (b & -> & Hb).
      cbn; rewrite ?Hr. exists b. split; [destruct b; reflexivity|].
      rewrite Hb. split.
      * intros (a & ip & H). right. exists c, r, a, ip. tauto.
      * intros [H|(c' & r' & a & ip & [= <- <-] & H)]; [discriminate H|].
        exists a, ip. exact H.
    + rewrite some_entry_allows_local by (left; exact Hr). cbn; rewrite ?Hr.
      exists true. split; [reflexivity|]. split; [|reflexivity]. intros _.
      left. reflexivity.
  - intros Hr. unfold _is_connection_authorized. rewrite Hc. cbn [mbind result_bind].
    rewrite some_entry_allows_local by (right; exact Hr). cbn; rewrite ?Hr.
    reflexivity.
  - unfold _is_connection_authorized.
    replace (category _load_whitelist "connections")
      with (Ok [ entry [("ip", "127.0.0.1"); ("port", "*");
                         ("description", "localhost")];
                 entry [("ip", "api.openai.com"); ("port", "443");
                        ("description", "OpenAI API")] ])
      by (vm_compute; reflexivity).
    cbn [mbind result_bind].
    destruct (remote conn) as [[|c r]|] eqn:Hr.
    + rewrite some_entry_allows_local by (right; exact Hr). cbn; rewrite ?Hr.
      reflexivity.
    + cbn [some_entry_allows]. rewrite Hr.
      replace (get (entry [("ip", "127.0.0.1"); ("port", "*");
                           ("description", "localhost")]) "ip" PNone)
        with (Ok (PStr (py "127.0.0.1"))) by (vm_compute; reflexivity).
      replace (get (entry [("ip", "api.openai.com"); ("port", "443");
                           ("description", "OpenAI API")]) "ip" PNone)
        with (Ok (PStr (py "api.openai.com"))) by (vm_compute; reflexivity).
      cbn [mbind result_bind eq_str].
      rewrite !(bool_decide_sym _ (before_colon (c :: r))).
      destruct (bool_decide (before_colon (c :: r) = py "127.0.0.1"));
        [reflexivity|].
      destruct (bool_decide (before_colon (c :: r) = py "api.openai.com"));
        reflexivity.
    + rewrite some_entry_allows_local by (left; exact Hr). cbn; rewrite ?Hr.
      reflexivity.
Qed.

Lemma connection_authorization_witness :
  _is_connection_authorized _load_whitelist
    {| local := py "10.0.0.5:5000"; remote := Some (py "127.0.0.1:8080");
       pid := PInt 42; status := py "ESTABLISHED" |}
  = Ok true.
Proof.
  refine (eq_trans
            (proj2 (proj2 (connection_authorization _load_whitelist
               [ entry [("ip", "127.0.0.1"); ("port", "*");
                        ("description", "localhost")];
                 entry [("ip", "api.openai.com"); ("port", "443");
                        ("description", "OpenAI API")] ] _ _ _))) _).
  - vm_compute. reflexivity.
  - repeat constructor; eexists; reflexivity.
  - vm_compute. reflexivity.
Defined.

(** ** The network sweep *)

Lemma suspicious_connections_filter wl conns suspicious :
  suspicious_connections wl conns = Ok suspicious ->
  suspicious
  = List.filter
      (fun conn => match _is_connection_authorized wl conn with
                   | Ok false => true
                   | _ => false
                   end) conns.
Proof.
  revert suspicious. induction conns as [|conn conns IH]; intros suspicious H.
  - injection H as <-. reflexivity.
  - cbn [suspicious_connections] in H. cbn [List.filter].
    destruct (_is_connection_authorized wl conn) as [authorized|e];
      [|discriminate H].
    cbn [mbind result_bind] in H.
    destruct (suspicious_connections wl conns) as [rest|e]; [|discriminate H].
    cbn [mbind result_bind] in H. injection H as <-.
    rewrite <- (IH rest eq_refl). destruct authorized; reflexivity.
Qed.

Lemma _handle_suspicious_activity_returns s category description severity :
  0 <= threat_level s + severity ->
  exists s',
    _handle_suspicious_activity category description severity s = Returned () s'
    /\ threat_level s' = Z.min 10 (threat_level s + severity)
    /\ active_countermeasures s'
       = if 8 <=? severity then with_lockdown (active_countermeasures s)
         else if 5 <=? severity
              then add_missing reduced_measures (active_countermeasures s)
         else active_countermeasures s.
Proof.
  intros H0. unfold _handle_suspicious_activity, _send_results.
  erewrite bind_returned by reflexivity.
  match goal with
  | |- context [mbind _ (_update_threat_level severity) ?s0] =>
      destruct (_update_threat_level_small s0 severity H0)
        as (s1 & E1 & Hl1 & Ha1 & _)
  end.
  erewrite bind_returned by exact E1.
  cbn [threat_level active_countermeasures set_log] in Hl1, Ha1.
  destruct (8 <=? severity) eqn:E8.
  - destruct (_activate_lockdown_returns s1) as (s2 & E2 & Hl2 & Ha2).
    erewrite bind_returned by exact E2.
    eexists. split; [reflexivity|].
    cbn [threat_level active_countermeasures set_log]. split; congruence.
  - destruct (5 <=? severity) eqn:E5.
    + destruct (_activate_countermeasures_small reduced_measures s1)
        as (s2 & E2 & Hl2 & Ha2 & _);
        [lia|right; exact reduced_measures_stay_inside|].
      erewrite bind_returned by exact E2.
      eexists. split; [reflexivity|].
      cbn [threat_level active_countermeasures set_log]. split; congruence.
    + erewrite bind_returned by reflexivity.
      eexists. split; [reflexivity|].
      cbn [threat_level active_countermeasures set_log]. split; congruence.
Qed.

(** X11: a sweep of [_monitor_network_activity] over connections that the
    whitelist can judge collects, in order, those judged unauthorised.
    With none it leaves the sentinel exactly as it was, log included.
    With [n >= 1] of them, on a sentinel whose level is not negative, it
    returns with the level raised by [n] and capped at 10, locks down
    when [n >= 8], applies the two reduced measures when [5 <= n < 8]
    and no measure below. *)
Theorem network_sweep_counts_unauthorised describe wl conns suspicious s :
  suspicious_connections wl conns = Ok suspicious ->
  0 <= threat_level s ->
  suspicious
  = List.filter
      (fun conn => match _is_connection_authorized wl conn with
                   | Ok false => true
                   | _ => false
                   end) conns
  /\ exists s',
       _monitor_network_activity describe wl conns s = Returned () s'
       /\ match suspicious with
          | [] => s' = s
          | _ :: _ =>
              let n := Z.of_nat (length suspicious) in
              threat_level s' = Z.min 10 (threat_level s + n)
              /\ active_countermeasures s'
                 = if 8 <=? n then with_lockdown (active_countermeasures s)
                   else if 5 <=? n
                        then add_missing reduced_measures
                               (active_countermeasures s)
                   else active_countermeasures s
          end.
Proof.
  intros Hs H0. split; [exact (suspicious_connections_filter _ _ _ Hs)|].
  unfold _monitor_network_activity. rewrite Hs.
  destruct suspicious as [|conn rest].
  - exists s. split; reflexivity.
  - destruct (_handle_suspicious_activity_returns s (py "network")
                (describe (conn :: rest)) (Z.of_nat (length (conn :: rest))))
      as (s' & E & Hl & Ha); [lia|].
    exists s'. split; [exact E|]. split; assumption.
Qed.

Lemma network_sweep_counts_unauthorised_witness :
  exists s',
    _monitor_network_activity (fun _ => py "connections") _load_whitelist
      (map (fun r => {| local := py "10.0.0.5:5000"; remote := Some r;
                        pid := PNone; status := py "ESTABLISHED" |})
           [py "8.8.8.8:53"; py "127.0.0.1:80"; py "1.1.1.1:53";
            py "9.9.9.9:53"; py "api.openai.com:443"; py "4.4.4.4:53";
            py "5.5.5.5:53"])
      init
    = Returned () s'
    /\ threat_level s' = 5
    /\ active_countermeasures s' = reduced_measures.
Proof.
  destruct (network_sweep_counts_unauthorised (fun _ => py "connections")
              _load_whitelist
              (map (fun r => {| local := py "10.0.0.5:5000"; remote := Some r;
                                pid := PNone; status := py "ESTABLISHED" |})
                   [py "8.8.8.8:53"; py "127.0.0.1:80"; py "1.1.1.1:53";
                    py "9.9.9.9:53"; py "api.openai.com:443"; py "4.4.4.4:53";
                    py "5.5.5.5:53"])
              _ init eq_refl ltac:(vm_compute; discriminate))
    as (_ & s' & E & Hl & Ha).
  exists s'. split; [exact E|]. split; [exact Hl|exact Ha].
Defined.

(** ** Whitelisted processes *)

(** X12: with the built-in whitelist, whose process entries carry no
    ['path'], [_is_process_whitelisted] cannot answer [False] for a
    process that has an executable path: it answers [True] when the
    lowered name contains the lowered [python], and raises [TypeError]
    otherwise, at [None in process_info['exe']] of the first entry.  Only
    a process without executable path is compared with the three names,
    and a process without a name raises [AttributeError]. *)
Theorem process_with_a_path_is_python_or_TypeError lower info :
  match name info, exe info with
  | None, _ => _is_process_whitelisted lower _load_whitelist info
               = Raise AttributeError
  | Some n, Some (_ :: _) =>
      _is_process_whitelisted lower _load_whitelist info
      = if occurs_in (lower (py "python")) (lower n)
        then Ok true else Raise TypeError
  | Some n, _ =>
      _is_process_whitelisted lower _load_whitelist info
      = Ok (occurs_in (lower (py "python")) (lower n)
            || occurs_in (lower (py "chrome")) (lower n)
            || occurs_in (lower (py "svchost")) (lower n))
  end.
Proof.
  destruct info as [[n|] [[|c e]|]]; cbn [name exe]; try reflexivity.
  - change (_is_process_whitelisted lower _load_whitelist
              {| name := Some n; exe := Some [] |})
      with (if occurs_in (lower (py "python")) (lower n) then Ok true
            else if occurs_in (lower (py "chrome")) (lower n) then Ok true
            else if occurs_in (lower (py "svchost")) (lower n) then Ok true
            else Ok false).
    repeat destruct (occurs_in _ (lower n)); reflexivity.
  - change (_is_process_whitelisted lower _load_whitelist
              {| name := Some n; exe := None |})
      with (if occurs_in (lower (py "python")) (lower n) then Ok true
            else if occurs_in (lower (py "chrome")) (lower n) then Ok true
            else if occurs_in (lower (py "svchost")) (lower n) then Ok true
            else Ok false).
    repeat destruct (occurs_in _ (lower n)); reflexivity.
Qed.

(** ** Updates of the whitelist *)

Lemma extend_categories_extends entries wl :
  dom (fst (extend_categories entries wl)) = dom wl
  /\ forall c old,
       wl !! c = Some old ->
       exists added, fst (extend_categories entries wl) !! c = Some (old ++ added).
Proof.
  revert wl. induction entries as [|[cat new_items] entries IH]; intros wl.
  - split; [reflexivity|]. intros c old H. exists []. rewrite app_nil_r. exact H.
  - cbn [extend_categories]. destruct (wl !! cat) as [old0|] eqn:Hcat; [|apply IH].
    destruct (iterate new_items) as [l|e].
    + destruct (IH (<[cat := old0 ++ l]> wl)) as [Hd Hl]. split.
      * rewrite Hd, dom_insert_L.
        apply subseteq_union_1_L, singleton_subseteq_l, elem_of_dom.
        eauto.
      * intros c old Hc. destruct (decide (c = cat)) as [->|Hne].
        -- assert (old = old0) as -> by congruence.
           destruct (Hl cat (old0 ++ l)) as [added Ha];
             [apply lookup_insert_eq|].
           exists (l ++ added). rewrite Ha, app_assoc. reflexivity.
        -- apply Hl. rewrite lookup_insert_ne by congruence. exact Hc.
    + split; [reflexivity|]. intros c old H. exists []. rewrite app_nil_r. exact H.
Qed.

Lemma extend_categories_unknown entries wl :
  (forall c v, (c, v) ∈ entries -> wl !! c = None) ->
  extend_categories entries wl = (wl, Ok ()).
Proof.
  induction entries as [|[cat new_items] entries IH]; intros H; [reflexivity|].
  cbn [extend_categories]. rewrite (H cat new_items) by left.
  apply IH. intros c v Hin. apply (H c v). right. exact Hin.
Qed.

(** X13: [_update_whitelist] never adds or removes a category of the
    whitelist, and every category keeps the entries it had, in order, in
    front of what the update appended, also when the update raises half
    way.  Entries for a category that the whitelist does not have are
    ignored without an error, and a task without ['entries'] raises
    [KeyError] and leaves the whitelist as it was. *)
Theorem update_whitelist_only_extends task wl :
  dom (fst (_update_whitelist task wl)) = dom wl
  /\ (forall c old,
        wl !! c = Some old ->
        exists added, fst (_update_whitelist task wl) !! c = Some (old ++ added))
  /\ (forall t d,
        task = PDict t -> assoc (py "entries") t = Some (PDict d) ->
        (forall c v, (c, v) ∈ d -> wl !! c = None) ->
        _update_whitelist task wl = (wl, Ok (length d)))
  /\ (forall t,
        task = PDict t -> assoc (py "entries") t = None ->
        _update_whitelist task wl = (wl, Raise (KeyError "entries"))).
Proof.
  assert (H : dom (fst (_update_whitelist task wl)) = dom wl
              /\ forall c old,
                   wl !! c = Some old ->
                   exists added,
                     fst (_update_whitelist task wl) !! c = Some (old ++ added)).
  { unfold _update_whitelist.
    destruct (entries ← getitem task "entries"; items entries) as [d|e].
    - destruct (extend_categories_extends d wl) as [Hd Hl].
      destruct (extend_categories d wl) as [wl' [[]|e]]; split; assumption.
    - split; [reflexivity|]. intros c old Hc. exists [].
      rewrite app_nil_r. exact Hc. }
  destruct H as [Hd Hl]. split; [exact Hd|]. split; [exact Hl|]. split.
  - intros t d -> Ht Hun. unfold _update_whitelist. cbn [getitem].
    rewrite Ht. cbn [mbind result_bind items].
    rewrite (extend_categories_unknown d wl Hun). reflexivity.
  - intros t -> Ht. unfold _update_whitelist. cbn [getitem]. rewrite Ht.
    reflexivity.
Qed.

Lemma update_whitelist_only_extends_witness :
  exists added,
    fst (_update_whitelist
           (PDict [ (py "type", PStr (py "update_whitelist"));
                    (py "entries",
                     PDict [ (py "connections",
                              PList [entry [("ip", "10.0.0.1")]]);
                             (py "hosts", PList [PStr (py "example.org")]) ]) ])
           _load_whitelist) !! py "connections"
    = Some ([ entry [("ip", "127.0.0.1"); ("port", "*");
                     ("description", "localhost")];
              entry [("ip", "api.openai.com"); ("port", "443");
                     ("description", "OpenAI API")] ] ++ added).
Proof.
  apply (proj1 (proj2 (update_whitelist_only_extends _ _))).
  vm_compute. reflexivity.
Defined.

(** ** The integrity check *)

(** X14: [_check_system_integrity] never compares a hash: whatever the
    files hash to, whatever the comparison would do and whatever the
    state, the call raises and leaves the sentinel as it was.  When the
    three files can be hashed the exception is the [AttributeError] of
    [self.integrity_baseline], which [__init__] never assigns. *)
Theorem integrity_check_never_compares _hash_file compare_hashes s :
  (exists e, _check_system_integrity _hash_file compare_hashes s = Raised e s)
  /\ ((forall file, is_ok (_hash_file file) = true) ->
      _check_system_integrity _hash_file compare_hashes s
      = Raised AttributeError s).
Proof.
  unfold _check_system_integrity.
  destruct (_hash_file "agents/commander.py") as [h1|e1] eqn:E1.
  2: { split; [exists e1; reflexivity|].
       intros H. specialize (H "agents/commander.py"). rewrite E1 in H.
       discriminate H. }
  destruct (_hash_file "core/crypto.py") as [h2|e2] eqn:E2.
  2: { split; [exists e2; reflexivity|].
       intros H. specialize (H "core/crypto.py"). rewrite E2 in H.
       discriminate H. }
  destruct (_hash_file "config/api_keys.ini") as [h3|e3] eqn:E3.
  2: { split; [exists e3; reflexivity|].
       intros H. specialize (H "config/api_keys.ini"). rewrite E3 in H.
       discriminate H. }
  split; [exists AttributeError|intros _]; reflexivity.
Qed.

Lemma integrity_check_never_compares_witness :
  _check_system_integrity (fun _ => Ok PNone)
    (_handle_suspicious_activity (py "integrity") (py "files modified") 10)
    init
  = Raised AttributeError init.
Proof.
  apply (proj2 (integrity_check_never_compares (fun _ => Ok PNone)
                  (_handle_suspicious_activity (py "integrity")
                     (py "files modified") 10) init)).
  intros file. reflexivity.
Defined.

End MonitorsProps.

(* ===================================================================== *)
(** * The registry and [init_agents] *)
(* ===================================================================== *)

Module BootstrapProps.
Import Py Registry Bootstrap.



Lemma register_agent_inv agent_type inst cls cls' :
  register_agent agent_type inst cls = Ok cls' ->
  cls' = {| _agents := <[agent_type := inst]> (_agents cls);
            registered_log := registered_log cls ++ [agent_type] |}.
Proof.
  unfold register_agent. destruct (negb _); [discriminate|].
  intros [= <-]. reflexivity.
Qed.

(** X15: a registration only touches its own identifier: every other
    identifier answers [get_agent] as before, a second registration
    under the same identifier replaces the instance (the registry is
    then as if the first had not happened, but for the log), and each
    successful registration adds one line to the log.  An identifier
    that was never registered makes [get_agent] raise [ValueError]. *)
Theorem registration_is_per_identifier agent_type inst cls cls' :
  register_agent agent_type inst cls = Ok cls' ->
  (forall other, other <> agent_type ->
     get_agent other cls' = get_agent other cls)
  /\ (forall inst2 cls2,
        register_agent agent_type inst2 cls' = Ok cls2 ->
        get_agent agent_type cls2 = Ok inst2
        /\ _agents cls2 = <[agent_type := inst2]> (_agents cls))
  /\ registered_log cls' = registered_log cls ++ [agent_type]
  /\ (forall other,
        _agents cls !! other = None -> other <> agent_type ->
        get_agent other cls'
        = Raise (ValueError ("Agent " +:+ other +:+ " not registered"))).
Proof.
  intros H. apply register_agent_inv in H. subst cls'.
  split; [|split; [|split]].
  - intros other Hne. unfold get_agent. cbn [_agents].
    rewrite lookup_insert_ne by congruence. reflexivity.
  - intros inst2 cls2 H2. apply register_agent_inv in H2. subst cls2.
    unfold get_agent. cbn [_agents]. rewrite lookup_insert_eq, insert_insert_eq.
    split; reflexivity.
  - reflexivity.
  - intros other Hnone Hne. unfold get_agent. cbn [_agents].
    rewrite lookup_insert_ne by congruence. rewrite Hnone. reflexivity.
Qed.

Lemma registration_is_per_identifier_witness :
  get_agent "sentinel"
    {| _agents := <["warden" := capable]> (_agents empty);
       registered_log := registered_log empty ++ ["warden"] |}
  = Raise (ValueError "Agent sentinel not registered").
Proof.
  refine (proj2 (proj2 (proj2
            (registration_is_per_identifier "warden" capable empty _ _)))
            "sentinel" _ _).
  - vm_compute. reflexivity.
  - reflexivity.
  - discriminate.
Defined.



End BootstrapProps.

(* ===================================================================== *)
(** * Campaign identifiers *)
(* ===================================================================== *)

Module CommanderProps.
Import Py Commander.

Section Launch.
Variable sha256_hexdigest : pybytes -> pystr.

Lemma _generate_id_campaign_of product target_demo others :
  _generate_id sha256_hexdigest (campaign_of product target_demo others)
  = Crypto.hash_data sha256_hexdigest (product ++ target_demo).
Proof. reflexivity. Qed.

Lemma _generate_id_inv campaign id :
  _generate_id sha256_hexdigest campaign = Ok id ->
  exists product target_demo b,
    getitem campaign "product" = Ok (PStr product)
    /\ getitem campaign "target_demo" = Ok (PStr target_demo)
    /\ encode (product ++ target_demo) = Ok b
    /\ id = take 12 (sha256_hexdigest b).
Proof.
  unfold _generate_id.
  destruct (getitem campaign "product") as [product|e]; [|discriminate].
  destruct (getitem campaign "target_demo") as [target_demo|e]; [|discriminate].
  cbn [mbind result_bind].
  destruct product as [| | |p| |], target_demo as [| | |t| |];
    try discriminate.
  cbn [add mbind result_bind hash_value]. unfold Crypto.hash_data.
  cbn [mbind result_bind].
  destruct (Crypto.load_global "hashlib"); [|discriminate].
  cbn [mbind result_bind].
  destruct (encode (p ++ t)) as [b|e] eqn:Eb; [|discriminate].
  intros [= <-]. exists p, t, b.
  split; [reflexivity|]. split; [reflexivity|]. split; [exact Eb|reflexivity].
Qed.

(** X17: a launch that returns has stored the campaign under the
    identifier it returns and has touched no other identifier.  It
    returns only for a campaign whose ['product'] and ['target_demo']
    are both strs, and the identifier is the first 12 characters of the
    digest of their concatenation, hence at most 12 characters long. *)
Theorem launch_campaign_stores_under_its_id campaign self id self' :
  launch_campaign sha256_hexdigest campaign self = Ok (id, self') ->
  campaigns self' !! id = Some campaign
  /\ (forall other, other <> id ->
        campaigns self' !! other = campaigns self !! other)
  /\ (length id <= 12)%nat
  /\ exists product target_demo b,
       getitem campaign "product" = Ok (PStr product)
       /\ getitem campaign "target_demo" = Ok (PStr target_demo)
       /\ encode (product ++ target_demo) = Ok b
       /\ id = take 12 (sha256_hexdigest b).
Proof.
  unfold launch_campaign.
  destruct (_generate_id sha256_hexdigest campaign) as [i|e] eqn:E;
    [|discriminate].
  cbn [mbind result_bind]. intros [= <- <-]. cbn [campaigns].
  destruct (_generate_id_inv campaign i E) as (p & t & b & Hp & Ht & Hb & Hi).
  split; [apply lookup_insert_eq|]. split.
  - intros other Hne. apply lookup_insert_ne. congruence.
  - split; [|exists p, t, b; auto].
    rewrite Hi, length_take. lia.
Qed.

(** X18: the identifier of a campaign depends on the concatenation of
    product and target only.  Two campaigns whose concatenations agree,
    as product [ab] for [c] and product [a] for [bc] do, get the same
    identifier, and launching the second replaces the first: the
    commander then holds what it would hold had the first never been
    launched. *)
Theorem campaigns_with_one_concatenation_collide
    product1 target1 others1 product2 target2 others2 self id self1 :
  product1 ++ target1 = product2 ++ target2 ->
  launch_campaign sha256_hexdigest (campaign_of product1 target1 others1) self
  = Ok (id, self1) ->
  exists self2,
    launch_campaign sha256_hexdigest (campaign_of product2 target2 others2) self1
    = Ok (id, self2)
    /\ campaigns self2 !! id = Some (campaign_of product2 target2 others2)
    /\ campaigns self2
       = <[id := campaign_of product2 target2 others2]> (campaigns self).
Proof.
  intros Hcat. unfold launch_campaign.
  rewrite !_generate_id_campaign_of, <- Hcat.
  destruct (Crypto.hash_data sha256_hexdigest (product1 ++ target1)) as [i|e];
    [|discriminate].
  cbn [mbind result_bind]. intros [= <- <-].
  eexists. split; [reflexivity|]. cbn [campaigns].
  split; [apply lookup_insert_eq|apply insert_insert_eq].
Qed.
End Launch.

Lemma launch_campaign_stores_under_its_id_witness :
  campaigns
    {| crypto := {| Crypto.key := []; Crypto.cipher := Crypto.armor_cipher |};
       campaigns := <[py "6162" := campaign_of (py "ab") (py "") []]> ∅ |}
  !! py "6162"
  = Some (campaign_of (py "ab") (py "") []).
Proof.
  refine (proj1 (launch_campaign_stores_under_its_id
                   (fun b => flat_map (fun x => py "6" ++ [48 + x mod 16]) b)
                   (campaign_of (py "ab") (py "") [])
                   {| crypto := {| Crypto.key := [];
                                   Crypto.cipher := Crypto.armor_cipher |};
                      campaigns := ∅ |} _ _ _)).
  vm_compute. reflexivity.
Defined.

Lemma campaigns_with_one_concatenation_collide_witness :
  exists self2,
    launch_campaign (fun b => flat_map (fun x => py "6" ++ [48 + x mod 16]) b)
      (campaign_of (py "a") (py "bc") [])
      {| crypto := {| Crypto.key := []; Crypto.cipher := Crypto.armor_cipher |};
         campaigns := <[py "616263" := campaign_of (py "ab") (py "c") []]> ∅ |}
    = Ok (py "616263", self2)
    /\ campaigns self2 !! py "616263" = Some (campaign_of (py "a") (py "bc") [])
    /\ campaigns self2
       = <[py "616263" := campaign_of (py "a") (py "bc") []]> ∅.
Proof.
  refine (campaigns_with_one_concatenation_collide
            (fun b => flat_map (fun x => py "6" ++ [48 + x mod 16]) b)
            (py "ab") (py "c") [] (py "a") (py "bc") []
            {| crypto := {| Crypto.key := [];
                            Crypto.cipher := Crypto.armor_cipher |};
               campaigns := ∅ |} _ _ _ _).
  - reflexivity.
  - vm_compute. reflexivity.
Defined.

End CommanderProps.

(* ===================================================================== *)
(** * core/utils.py: the circular buffer and the sanitizer *)
(* ===================================================================== *)

Module UtilsProps.
Import Py Utils.

Section Buffer.
Context {A : Type}.
Implicit Types (b : CircularBuffer A) (xs : list A).

(** One [add] on a buffer that holds the last items of [xs], oldest
    first from [index] on. *)
Lemma add_keeps_the_window N xs x b i :
  0 < N -> size b = N -> index b = Z.of_nat i ->
  Z.of_nat i = Z.of_nat (length xs) mod N ->
  length (buffer b) = (length xs `min` Z.to_nat N)%nat ->
  drop i (buffer b) ++ take i (buffer b) = drop (length xs - Z.to_nat N) xs ->
  exists b' i',
    add x b = (b', None)
    /\ size b' = N /\ index b' = Z.of_nat i'
    /\ Z.of_nat i' = Z.of_nat (length (xs ++ [x])) mod N
    /\ length (buffer b') = (length (xs ++ [x]) `min` Z.to_nat N)%nat
    /\ drop i' (buffer b') ++ take i' (buffer b')
       = drop (length (xs ++ [x]) - Z.to_nat N) (xs ++ [x]).
Proof.
  destruct b as [sz buf idx]. cbn [size index buffer].
  intros HN -> -> Hi Hlen Hrot. unfold add. cbn [size index buffer].
  assert (HN0 : (N =? 0) = false) by (apply Z.eqb_neq; lia).
  assert (Hi' : forall k, 0 <= k mod N < N)
    by (intros k; apply Z.mod_pos_bound; lia).
  rewrite length_app. cbn [length].
  destruct (Z.of_nat (length buf) <? N) eqn:E.
  - apply Z.ltb_lt in E. rewrite HN0.
    assert (Hn : length xs = length buf) by lia.
    rewrite Z.mod_small in Hi by lia.
    assert (i = length buf) as -> by lia.
    rewrite drop_all, take_ge in Hrot by lia.
    replace (length xs - Z.to_nat N)%nat with 0%nat in Hrot by lia.
    cbn [drop app] in Hrot. subst buf.
    exists {| size := N; buffer := xs ++ [x];
              index := (Z.of_nat (length xs) + 1) mod N |},
           (Z.to_nat ((Z.of_nat (length xs) + 1) mod N)).
    cbn [size index buffer].
    split; [reflexivity|]. split; [reflexivity|].
    split; [rewrite Z2Nat.id by apply Hi'; reflexivity|].
    split; [rewrite Z2Nat.id by apply Hi'; f_equal; lia|].
    split; [rewrite length_app; cbn [length]; lia|].
    replace (length xs + 1 - Z.to_nat N)%nat with 0%nat by lia.
    cbn [drop].
    destruct (decide (Z.of_nat (length xs) + 1 = N)) as [Heq|Hne].
    + rewrite Heq, Z.mod_same by lia. cbn [Z.to_nat drop take].
      apply app_nil_r.
    + rewrite Z.mod_small by lia.
      rewrite drop_ge, take_ge by (rewrite length_app; cbn [length]; lia).
      reflexivity.
  - apply Z.ltb_ge in E.
    assert (Hbuf : length buf = Z.to_nat N) by lia.
    assert (Hxs : (Z.to_nat N <= length xs)%nat) by lia.
    assert (Hlt : (i < length buf)%nat) by (specialize (Hi' (Z.of_nat (length xs))); lia).
    unfold setitem.
    replace ((0 <=? Z.of_nat i) && (Z.of_nat i <? Z.of_nat (length buf)))
      with true by (symmetry; apply andb_true_iff; split;
                    [apply Z.leb_le|apply Z.ltb_lt]; lia).
    rewrite HN0, Nat2Z.id.
    exists {| size := N; buffer := <[i := x]> buf;
              index := (Z.of_nat i + 1) mod N |},
           (Z.to_nat ((Z.of_nat i + 1) mod N)).
    cbn [size index buffer].
    split; [reflexivity|]. split; [reflexivity|].
    split; [rewrite Z2Nat.id by apply Hi'; reflexivity|].
    split.
    { rewrite Z2Nat.id by apply Hi'. rewrite Hi, Zplus_mod_idemp_l.
      f_equal. lia. }
    split; [rewrite length_insert; lia|].
    destruct (lookup_lt_is_Some_2 buf i Hlt) as [y Hy].
    rewrite (drop_S _ _ _ Hy) in Hrot.
    rewrite drop_app_le by lia.
    replace (length xs + 1 - Z.to_nat N)%nat
      with ((length xs - Z.to_nat N) + 1)%nat by lia.
    rewrite <- drop_drop, <- Hrot. cbn [drop app].
    destruct (decide (Z.of_nat i + 1 = N)) as [Heq|Hne].
    + rewrite Heq, Z.mod_same by lia. cbn [Z.to_nat drop take].
      rewrite app_nil_r, insert_take_drop by exact Hlt.
      rewrite (drop_ge buf (S i)) by lia. reflexivity.
    + rewrite Z.mod_small by lia.
      replace (Z.to_nat (Z.of_nat i + 1)) with (S i) by lia.
      rewrite drop_insert_lt by lia.
      rewrite (take_S_r (<[i := x]> buf) i x)
        by (apply list_lookup_insert_eq; exact Hlt).
      rewrite take_insert_ge by lia. rewrite app_assoc. reflexivity.
Qed.

Lemma add_all_keeps_the_window N ys : forall xs b i,
  0 < N -> size b = N -> index b = Z.of_nat i ->
  Z.of_nat i = Z.of_nat (length xs) mod N ->
  length (buffer b) = (length xs `min` Z.to_nat N)%nat ->
  drop i (buffer b) ++ take i (buffer b) = drop (length xs - Z.to_nat N) xs ->
  exists b' i',
    add_all ys b = (b', None)
    /\ size b' = N /\ index b' = Z.of_nat i'
    /\ Z.of_nat i' = Z.of_nat (length (xs ++ ys)) mod N
    /\ length (buffer b') = (length (xs ++ ys) `min` Z.to_nat N)%nat
    /\ drop i' (buffer b') ++ take i' (buffer b')
       = drop (length (xs ++ ys) - Z.to_nat N) (xs ++ ys).
Proof.
  induction ys as [|y ys IH]; intros xs b i HN Hs Hidx Hi Hlen Hrot.
  - exists b, i. rewrite app_nil_r. cbn [add_all]. auto 10.
  - destruct (add_keeps_the_window N xs y b i HN Hs Hidx Hi Hlen Hrot)
      as (b1 & i1 & E1 & Hs1 & Hidx1 & Hi1 & Hlen1 & Hrot1).
    destruct (IH (xs ++ [y]) b1 i1 HN Hs1 Hidx1 Hi1 Hlen1 Hrot1)
      as (b' & i' & E & H).
    exists b', i'. cbn [add_all]. rewrite E1, E.
    rewrite <- app_assoc in H. cbn [app] in H. split; [reflexivity|exact H].
Qed.

(** X19: a buffer made for [size > 0] items never raises on [add], and
    after any items were added to the new buffer, [get_all] returns the
    last [size] of them (all of them while there are fewer), oldest
    first; the buffer never holds more than [size] items. *)
Theorem buffer_returns_the_latest_items (N : Z) xs :
  0 < N ->
  exists b,
    add_all xs (new N) = (b, None)
    /\ get_all b = drop (length xs - Z.to_nat N) xs
    /\ length (buffer b) = (length xs `min` Z.to_nat N)%nat
    /\ size b = N.
Proof.
  intros HN.
  destruct (add_all_keeps_the_window N xs [] (new N) 0%nat HN)
    as (b & i & E & Hs & Hidx & Hi & Hlen & Hrot);
    try reflexivity.
  cbn [app] in *. exists b. split; [exact E|]. split; [|split; assumption].
  unfold get_all, cut. rewrite Hidx.
  assert (Hb : 0 <= Z.of_nat (length xs) mod N < N)
    by (apply Z.mod_pos_bound; lia).
  replace (Z.of_nat i <? 0) with false by (symmetry; apply Z.ltb_ge; lia).
  assert (Hle : (i <= length (buffer b))%nat).
  { rewrite Hlen.
    destruct (decide (length xs < Z.to_nat N)%nat) as [Hlt|Hge]; [|lia].
    rewrite Z.mod_small in Hi by lia. lia. }
  replace (Z.to_nat (Z.min (Z.of_nat i) (Z.of_nat (length (buffer b)))))
    with i by lia.
  exact Hrot.
Qed.

(** X20: a buffer made for no item, or for a negative number of items,
    cannot take any: the first [add] raises [IndexError], and the buffer
    is left empty with its index at [0]. *)
Theorem buffer_without_room_raises (N : Z) (x : A) xs :
  N <= 0 -> add_all (x :: xs) (new N) = (new N, Some IndexError).
Proof.
  intros HN. cbn [add_all]. unfold add, new, setitem.
  cbn [size buffer index length].
  replace (Z.of_nat 0 <? N) with false by (symmetry; apply Z.ltb_ge; lia).
  reflexivity.
Qed.
End Buffer.

Lemma buffer_returns_the_latest_items_witness :
  exists b,
    add_all [1; 2; 3; 4; 5; 6; 7] (new 3) = (b, None)
    /\ get_all b = drop (length [1; 2; 3; 4; 5; 6; 7] - Z.to_nat 3) [1; 2; 3; 4; 5; 6; 7]
    /\ length (buffer b) = (length [1; 2; 3; 4; 5; 6; 7] `min` Z.to_nat 3)%nat
    /\ size b = 3.
Proof. apply (buffer_returns_the_latest_items 3 [1; 2; 3; 4; 5; 6; 7]). lia. Defined.

Lemma buffer_without_room_raises_witness :
  add_all [1; 2] (new 0) = (new 0, Some IndexError).
Proof. apply (buffer_without_room_raises 0 1 [2]). lia. Defined.

Section Sanitize.
Variable isspace : Z -> bool.

Lemma lstrip_drop s : exists k, lstrip isspace s = drop k s.
Proof.
  induction s as [|c s [k IH]]; [exists 0%nat; reflexivity|].
  cbn [lstrip]. destruct (isspace c).
  - exists (S k). exact IH.
  - exists 0%nat. reflexivity.
Qed.

Lemma lstrip_sublist s : lstrip isspace s `sublist_of` s.
Proof. destruct (lstrip_drop s) as [k ->]. apply sublist_drop. Qed.

Lemma strip_sublist s : strip isspace s `sublist_of` s.
Proof.
  unfold strip.
  destruct (lstrip_drop (reverse (lstrip isspace s))) as [k ->].
  rewrite drop_reverse, reverse_involutive.
  etransitivity; [apply sublist_take|apply lstrip_sublist].
Qed.

Lemma lstrip_clean s :
  (forall c, head s = Some c -> isspace c = false) -> lstrip isspace s = s.
Proof.
  destruct s as [|c s]; [reflexivity|]. intros H. cbn [lstrip].
  rewrite (H c eq_refl). reflexivity.
Qed.

Lemma upto_sublist n s : upto n s `sublist_of` s.
Proof. unfold upto. destruct (n <? 0); apply sublist_take. Qed.

(** X21: [sanitize_string] on a str returns the characters of the input
    that it keeps, in their order, with no NUL among them; with
    [max_length >= 0] the result has at most [max_length] characters,
    and with a negative [max_length] it loses its last [-max_length]
    characters instead.  A str without NUL that neither starts nor ends
    with white space and is not longer than [max_length] comes back
    unchanged.  Anything that is not a str raises [ValueError]. *)
Theorem sanitize_string_cleans_and_bounds (s : pystr) (max_length : Z) :
  (exists r,
     sanitize_string isspace (PStr s) max_length = Ok r
     /\ r `sublist_of` s
     /\ (0 ∉ r)
     /\ (0 <= max_length -> Z.of_nat (length r) <= max_length)
     /\ (max_length < 0 ->
         Z.of_nat (length r)
         = Z.max 0 (Z.of_nat (length (remove_nul (strip isspace s)))
                    + max_length)))
  /\ ((0 ∉ s) ->
      (forall c, head s = Some c -> isspace c = false) ->
      (forall c, last s = Some c -> isspace c = false) ->
      Z.of_nat (length s) <= max_length ->
      sanitize_string isspace (PStr s) max_length = Ok s)
  /\ (forall v, (forall t, v <> PStr t) ->
        sanitize_string isspace v max_length
        = Raise (ValueError "Input must be a string")).
Proof.
  split; [|split].
  - eexists. split; [reflexivity|]. split; [|split; [|split]].
    + etransitivity; [apply upto_sublist|].
      etransitivity; [apply sublist_filter|apply strip_sublist].
    + intros H. eapply elem_of_sublist in H; [|apply upto_sublist].
      unfold remove_nul in H. apply list_elem_of_filter in H as [H _].
      apply H. reflexivity.
    + intros Hn. unfold upto.
      replace (max_length <? 0) with false by (symmetry; apply Z.ltb_ge; lia).
      rewrite length_take. lia.
    + intros Hn. unfold upto.
      replace (max_length <? 0) with true by (symmetry; apply Z.ltb_lt; lia).
      rewrite length_take. lia.
  - intros H0 Hh Hl Hn. unfold sanitize_string, strip. f_equal.
    rewrite (lstrip_clean s Hh).
    rewrite (lstrip_clean (reverse s))
      by (intros c Hc; apply Hl; rewrite <- head_reverse; exact Hc).
    rewrite reverse_involutive.
    assert (Hf : remove_nul s = s).
    { unfold remove_nul. clear Hh Hl Hn.
      induction s as [|c s IH]; [reflexivity|].
      unfold pystr in *. rewrite filter_cons.
      destruct (decide (c <> 0)) as [_|Hc].
      - f_equal. apply IH. intros H. apply H0. right. exact H.
      - exfalso. apply Hc. intros ->. apply H0. left. }
    rewrite Hf. unfold upto.
    replace (max_length <? 0) with false by (symmetry; apply Z.ltb_ge; lia).
    apply take_ge. lia.
  - intros v Hv. destruct v; try reflexivity. exfalso. eapply Hv. reflexivity.
Qed.
End Sanitize.

Lemma sanitize_string_cleans_and_bounds_witness :
  sanitize_string (fun c => c =? 32) (PStr (py "safe text")) 255
  = Ok (py "safe text").
Proof.
  apply (proj1 (proj2 (sanitize_string_cleans_and_bounds
                         (fun c => c =? 32) (py "safe text") 255))).
  - apply (bool_decide_unpack _). vm_compute. exact I.
  - intros c [= <-]. reflexivity.
  - intros c [= <-]. reflexivity.
  - vm_compute. discriminate.
Defined.

End UtilsProps.
